(** * A behaviour-driven browser test framework, embedded in Rocq

    The Python sources under [config/] and [features/] are translated
    function by function.  Python objects that are mutated in place (the
    browser manager, the scenario context) are threaded explicitly; calls
    into the browser-automation library are recorded, in order, in a log
    kept by the [world]; Python exceptions are the [Raise] outcome. *)

From Stdlib Require Import ZArith Ascii String.
From stdpp Require Import base option list strings pretty gmap.

(** ** Python primitives used by the sources *)

(** A character is a code point below 256. *)
Definition code (c : ascii) : nat := nat_of_ascii c.

Definition chr (n : nat) : ascii := ascii_of_nat n.

(** The double quote character, and a one-character string of it. *)
Definition dquote : ascii := chr 34.
Definition dq : string := String dquote "".

(** [str.lower()] on the letters A to Z and on the Latin-1 capitals. *)
Definition lower_char (c : ascii) : ascii :=
  let n := code c in
  if (65 <=? n) && (n <=? 90) then chr (n + 32)
  else if (192 <=? n) && (n <=? 222) && negb (n =? 215) then chr (n + 32)
  else c.

Fixpoint lower (s : string) : string :=
  match s with
  | EmptyString => EmptyString
  | String c r => String (lower_char c) (lower r)
  end.

(** [s.replace(old, new)] where [old] and [new] are single characters. *)
Fixpoint replace (old new : ascii) (s : string) : string :=
  match s with
  | EmptyString => EmptyString
  | String c r =>
      String (if bool_decide (c = old) then new else c) (replace old new r)
  end.

(** [s.startswith(p)]. *)
Fixpoint startswith (p s : string) : bool :=
  match p, s with
  | EmptyString, _ => true
  | String a p', String b s' => bool_decide (a = b) && startswith p' s'
  | String _ _, EmptyString => false
  end.

(** [sub in s] on strings: some suffix of [s] starts with [sub]. *)
Fixpoint py_in (sub s : string) : bool :=
  startswith sub s ||
  match s with
  | EmptyString => false
  | String _ r => py_in sub r
  end.

(** Values a library call may hand back where the sources expect
    [Optional[str]]. *)
Inductive value :=
| VNone
| VStr (s : string).

(** Truth value testing: [None] and the empty string are false. *)
Definition truthy (v : value) : bool :=
  match v with
  | VNone => false
  | VStr s => negb (bool_decide (s = ""))
  end.

(** [a or b] evaluates to [a] when [a] is true, and to [b] otherwise. *)
Definition py_or (a b : value) : value := if truthy a then a else b.

(** Why [int()] rejects a string: it is no integer literal, or it has more
    digits than the interpreter converts. *)
Inductive value_error :=
| InvalidLiteral (literal : string)
| ExceedsDigitLimit (digits : nat).

(** Exceptions raised by the sources, or by the interpreter or the
    automation library on their behalf.  [LaunchError] is the library's
    error for a browser that does not launch, [SyncApiError] its error for
    starting a driver while one is running in the thread. *)
Inductive exn :=
| AttributeError (attr : string)
| KeyError (key : string)
| ValueError (why : value_error)
| TypeError (what : string)
| AssertionError (msg : string)
| LaunchError
| SyncApiError
| UndefinedStep (phrase : string).

Inductive outcome (A : Type) :=
| Ok (a : A)
| Raise (e : exn).
Arguments Ok {A} a.
Arguments Raise {A} e.

Definition is_ok {A} (o : outcome A) : bool :=
  match o with Ok _ => true | Raise _ => false end.

(** *** [int(str)] in base ten *)

(** White space skipped by [int()] around the literal. *)
Definition is_space (c : ascii) : bool :=
  let n := code c in
  ((9 <=? n) && (n <=? 13)) || (n =? 32) || (n =? 133) || (n =? 160).

Definition is_digit (c : ascii) : bool :=
  let n := code c in (48 <=? n) && (n <=? 57).

Definition digit_value (c : ascii) : Z := Z.of_nat (code c - 48).

Fixpoint lstrip (cs : list ascii) : list ascii :=
  match cs with
  | c :: r => if is_space c then lstrip r else cs
  | [] => []
  end.

(** The longest run of digits with single underscores between them:
    its value, its number of digits and what follows it; [None] when two
    underscores meet or an underscore ends the run.  [prev] tells whether
    the previous character was an underscore. *)
Fixpoint scan (acc : Z) (count : nat) (prev : bool) (cs : list ascii)
  : option (Z * nat * list ascii) :=
  match cs with
  | [] => if prev then None else Some (acc, count, [])
  | c :: r =>
      if is_digit c then scan (10 * acc + digit_value c)%Z (S count) false r
      else if bool_decide (c = "_"%char) then
        if prev then None else scan acc count true r
      else if prev then None else Some (acc, count, cs)
  end.

(** The process the interpreter runs in: its environment variables and its
    limit on the number of digits [int()] converts (0 disables the limit). *)
Record process := Process {
  environ : gmap string string;
  max_str_digits : nat;
}.

(** The interpreter looks at the limit only for more than 640 digits. *)
Definition exceeds_limit (limit count : nat) : bool :=
  (640 <? count) && (0 <? limit) && (limit <? count).

(** An optional sign in front of the digits. *)
Definition split_sign (body : list ascii) : bool * list ascii :=
  match body with
  | c :: r =>
      if bool_decide (c = "-"%char) then (true, r)
      else if bool_decide (c = "+"%char) then (false, r)
      else (false, body)
  | [] => (false, body)
  end.

(** The digits of [int(s)] and the white space after them.  The digit limit
    is checked when the digits have been read, before what follows them is
    looked at. *)
Definition magnitude (limit : nat) (s : string) (ds : list ascii) : outcome Z :=
  match ds with
  | c :: _ =>
      if bool_decide (c = "_"%char) then Raise (ValueError (InvalidLiteral s))
      else
        match scan 0 0 false ds with
        | Some (v, count, rest) =>
            if exceeds_limit limit count
            then Raise (ValueError (ExceedsDigitLimit count))
            else if (count =? 0) || negb (bool_decide (lstrip rest = []))
            then Raise (ValueError (InvalidLiteral s))
            else Ok v
        | None => Raise (ValueError (InvalidLiteral s))
        end
  | [] => Raise (ValueError (InvalidLiteral s))
  end.

(** [int(s)]: white space, an optional sign, the digits, white space. *)
Definition py_int (limit : nat) (s : string) : outcome Z :=
  let '(negative, ds) := split_sign (lstrip (list_ascii_of_string s)) in
  match magnitude limit s ds with
  | Ok v => Ok (if negative then (- v)%Z else v)
  | Raise e => Raise e
  end.

(** [os.getenv(key, default)]. *)
Definition getenv (p : process) (key dflt : string) : string :=
  default dflt (environ p !! key).

(** ** config/settings.py *)

Module settings.

Definition ENVIRONMENT (p : process) : string := getenv p "TEST_ENV" "dev".

Definition BASE_URLS : gmap string string :=
  <["dev" := "https://dev.example.com"]>
  (<["staging" := "https://staging.example.com"]>
  (<["prod" := "https://example.com"]> ∅)).

Definition TIMEOUTS : gmap string Z :=
  <["default" := 30000%Z]>
  (<["short" := 5000%Z]>
  (<["medium" := 15000%Z]>
  (<["long" := 60000%Z]>
  (<["page_load" := 30000%Z]>
  (<["element_wait" := 10000%Z]> ∅))))).

(** [d[k]]: subscripting a dictionary raises [KeyError] on a missing
    key. *)
Definition item {V} (d : gmap string V) (k : string) : outcome V :=
  match d !! k with
  | Some v => Ok v
  | None => Raise (KeyError k)
  end.

(** [get_base_url(environment=None)]; the argument is [VNone] when it is
    left out.  The fallback [BASE_URLS["dev"]] is evaluated before the
    lookup. *)
Definition get_base_url (p : process) (environment : value)
  : outcome string :=
  let env := py_or environment (VStr (ENVIRONMENT p)) in
  match item BASE_URLS "dev" with
  | Raise e => Raise e
  | Ok fallback =>
      match env with
      | VStr e => Ok (default fallback (BASE_URLS !! e))
      | VNone => Ok fallback
      end
  end.

Definition get_timeout (timeout_type : string) : outcome Z :=
  match item TIMEOUTS "default" with
  | Raise e => Raise e
  | Ok fallback => Ok (default fallback (TIMEOUTS !! timeout_type))
  end.

End settings.

(** ** features/support/config.py *)

Record Config := mkConfig {
  browser_name : string;
  headless : bool;
  slow_mo : Z;
  base_url : string;
  timeout : Z;
  test_username : string;
  test_password : string;
}.

(** The class body of [Config], evaluated top to bottom when the module is
    imported: the first [int()] that fails aborts the import. *)
Definition Config_load (p : process) : outcome Config :=
  let browser_name := getenv p "BROWSER" "chromium" in
  let headless := bool_decide (lower (getenv p "HEADLESS" "false") = "true") in
  match py_int (max_str_digits p) (getenv p "SLOW_MO" "0") with
  | Raise e => Raise e
  | Ok slow_mo =>
      let base_url := getenv p "BASE_URL" "https://example.com" in
      match py_int (max_str_digits p) (getenv p "TIMEOUT" "30000") with
      | Raise e => Raise e
      | Ok timeout =>
          Ok (mkConfig browser_name headless slow_mo base_url timeout
                (getenv p "TEST_USERNAME" "testuser")
                (getenv p "TEST_PASSWORD" "testpass"))
      end
  end.

(** [BROWSER_CONFIG["slow_mo"]] of config/settings.py is computed by the
    same expression. *)
Definition BROWSER_CONFIG_slow_mo (p : process) : outcome Z :=
  py_int (max_str_digits p) (getenv p "SLOW_MO" "0").

(** ** The automation library, as seen from the sources *)

(** Drivers, browser processes and pages are identified by the number they
    were created under; two objects are the same object exactly when their
    numbers agree.  [PrintLine] is a [print] to standard output. *)
Inductive event :=
| Start (driver : nat)
| Launch (driver : nat) (kind : string) (headless : bool) (slow_mo : Z)
    (launched : option nat)
| BrowserClose (browser : nat)
| Stop (driver : nat)
| NewPage (browser page : nat)
| SetDefaultTimeout (page : nat) (ms : Z)
| Goto (page : nat) (url : string)
| WaitForLoadState (page : nat) (state : string)
| Click (page : nat) (selector : string)
| Fill (page : nat) (selector text : string)
| TextContent (page : nat) (selector : string)
| IsVisible (page : nat) (selector : string)
| WaitForSelector (page : nat) (selector : string) (state : option string)
    (timeout : option Z)
| Screenshot (page : nat) (path : string)
| PageClose (page : nat)
| PrintLine (line : string).

(** What lies outside the sources: the calls made so far (oldest first), the
    next unused object number, how many launches were attempted and which of
    them succeed, and what the pages answer to [text_content] and
    [is_visible]. *)
Record world := World {
  calls : list event;
  next_id : nat;
  attempts : nat;
  launch_ok : nat → bool;
  text_of : nat → string → value;
  visible : nat → string → bool;
}.

Definition record (e : event) (w : world) : world :=
  World (calls w ++ [e]) (next_id w) (attempts w) (launch_ok w) (text_of w)
    (visible w).

Definition allocate (w : world) : nat * world :=
  (next_id w,
   World (calls w) (S (next_id w)) (attempts w) (launch_ok w) (text_of w)
     (visible w)).

Definition attempt (w : world) : bool * world :=
  (launch_ok w (attempts w),
   World (calls w) (next_id w) (S (attempts w)) (launch_ok w) (text_of w)
     (visible w)).

(** ** Computations over a state that may raise *)

Definition M (S A : Type) : Type := S → outcome A * S.

Definition ret {S A} (a : A) : M S A := λ s, (Ok a, s).

Definition raise {S A} (e : exn) : M S A := λ s, (Raise e, s).

Definition bind {S A B} (m : M S A) (k : A → M S B) : M S B :=
  λ s, match m s with
       | (Ok a, s') => k a s'
       | (Raise e, s') => (Raise e, s')
       end.

Notation "x <- m ;; k" := (bind m (λ x, k))
  (at level 100, m at next level, right associativity).
Notation "m ;;; k" := (bind m (λ _, k))
  (at level 100, right associativity).

(** A call on the library: log it. *)
Definition call (e : event) : M world unit := λ w, (Ok tt, record e w).

(** Run a computation on the world inside a larger state. *)
Definition on_world {X A} (m : M world A) : M (X * world) A :=
  λ s, let '(a, w') := m (snd s) in (a, (fst s, w')).

Definition get_obj {X} : M (X * world) X := λ s, (Ok (fst s), s).

Definition set_obj {X} (x : X) : M (X * world) unit := λ s, (Ok tt, (x, snd s)).

(** The events a run added to the log. *)
Definition added (before after : world) : list event :=
  drop (length (calls before)) (calls after).

(** ** features/support/page_objects/base_page.py *)

Module BasePage.

(** [self.page] is the one attribute. *)
Record t := new { page : nat }.

Definition navigate_to (self : t) (url : string) : M world unit :=
  call (Goto (page self) url).

(** The default argument is [state="networkidle"]. *)
Definition wait_for_load_state (self : t) (state : string) : M world unit :=
  call (WaitForLoadState (page self) state).

Definition wait_for_load_state_default (self : t) : M world unit :=
  wait_for_load_state self "networkidle".

Definition click (self : t) (selector : string) : M world unit :=
  call (Click (page self) selector).

Definition fill (self : t) (selector text : string) : M world unit :=
  call (Fill (page self) selector text).

(** [self.page.text_content(selector)]: the answer is the page's. *)
Definition text_content (self : t) (selector : string) : M world value :=
  λ w, (Ok (text_of w (page self) selector),
        record (TextContent (page self) selector) w).

Definition get_text (self : t) (selector : string) : M world value :=
  v <- text_content self selector ;;
  ret (py_or v (VStr "")).

Definition is_visible (self : t) (selector : string) : M world bool :=
  λ w, (Ok (visible w (page self) selector),
        record (IsVisible (page self) selector) w).

(** [timeout] is [None] unless given; no [state] is passed on. *)
Definition wait_for_selector (self : t) (selector : string)
    (timeout : option Z) : M world unit :=
  call (WaitForSelector (page self) selector None timeout).

Definition take_screenshot (self : t) (path : string) : M world unit :=
  call (Screenshot (page self) path).

End BasePage.

(** The state the library waits for when [wait_for_selector] is given none. *)
Definition effective_state (state : option string) : string :=
  default "visible" state.

(** ** features/support/page_objects/login_page.py *)

Module LoginPage.

Definition USERNAME_INPUT : string := "#username".
Definition PASSWORD_INPUT : string := "#password".
Definition LOGIN_BUTTON : string := "#login-button".
Definition ERROR_MESSAGE : string := ".error-message".

Definition login (self : BasePage.t) (username password : string)
  : M world unit :=
  BasePage.fill self USERNAME_INPUT username ;;;
  BasePage.fill self PASSWORD_INPUT password ;;;
  BasePage.click self LOGIN_BUTTON.

Definition get_error_message (self : BasePage.t) : M world value :=
  BasePage.get_text self ERROR_MESSAGE.

Definition is_login_form_visible (self : BasePage.t) : M world bool :=
  BasePage.is_visible self USERNAME_INPUT.

End LoginPage.

(** ** features/support/page_objects/dashboard_page.py *)

Module DashboardPage.

Definition MAIN_CONTENT : string := "#main-content".
Definition USER_MENU : string := ".user-menu".
Definition NAVIGATION_BAR : string := ".navbar".
Definition LOAD_DATA_BUTTON : string := "button:has-text('Load Data')".
Definition LOADING_SPINNER : string := ".loading-spinner".
Definition DATA_TABLE : string := ".data-table".
Definition PROFILE_LINK : string := "a:has-text('Profile')".
Definition LOGOUT_BUTTON : string := "button:has-text('Logout')".

Definition load_data (self : BasePage.t) : M world unit :=
  BasePage.click self LOAD_DATA_BUTTON ;;;
  BasePage.wait_for_selector self LOADING_SPINNER (Some 5000%Z) ;;;
  call (WaitForSelector (BasePage.page self) LOADING_SPINNER
          (Some "hidden") (Some 30000%Z)).

Definition logout (self : BasePage.t) : M world unit :=
  BasePage.click self USER_MENU ;;;
  BasePage.click self LOGOUT_BUTTON.

Definition get_data_table_text (self : BasePage.t) : M world value :=
  BasePage.get_text self DATA_TABLE.

End DashboardPage.

(** ** The calls that create objects *)

(** The drivers that were started and not stopped since, latest first. *)
Definition track (ds : list nat) (e : event) : list nat :=
  match e with
  | Start d => d :: ds
  | Stop d => filter (λ x, x ≠ d) ds
  | _ => ds
  end.

Definition running (es : list event) : list nat := foldl track [] es.

(** [sync_playwright().start()]: a new driver; while a driver is running
    in the thread the library refuses to start another and raises. *)
Definition start : M world nat :=
  λ w, match running (calls w) with
       | [] => let '(d, w1) := allocate w in (Ok d, record (Start d) w1)
       | _ :: _ => (Raise SyncApiError, w)
       end.

(** [browser_type.launch(headless=..., slow_mo=...)]: a new browser process,
    or an error when the launch fails. *)
Definition launch (d : nat) (kind : string) (hl : bool) (sm : Z) : M world nat :=
  λ w, let '(ok, w1) := attempt w in
       if ok then
         let '(b, w2) := allocate w1 in
         (Ok b, record (Launch d kind hl sm (Some b)) w2)
       else (Raise LaunchError, record (Launch d kind hl sm None) w1).

(** [browser.new_page()]: a new page of that browser. *)
Definition new_page (b : nat) : M world nat :=
  λ w, let '(p, w1) := allocate w in (Ok p, record (NewPage b p) w1).

(** ** features/support/browser_manager.py *)

Module BrowserManager.

Record t := mk {
  playwright : option nat;
  browser : option nat;
  config : Config;
}.

(** [__init__]; [cfg] is what [Config()] gives. *)
Definition init (cfg : Config) : t := mk None None cfg.

(** The browser types a driver has as attributes.  For every other name
    [getattr], or the lookup of [launch] on what it returns, raises
    [AttributeError]. *)
Definition browser_types : list string := ["chromium"; "firefox"; "webkit"].

(** A browser handle is an object without [__bool__] or [__len__], so
    [not self.browser] holds exactly when the attribute is [None]; the same
    goes for the driver. *)
Definition get_browser : M (t * world) nat :=
  self <- get_obj ;;
  match browser self with
  | Some b => ret b
  | None =>
      d <- on_world start ;;
      set_obj (mk (Some d) (browser self) (config self)) ;;;
      if bool_decide (browser_name (config self) ∈ browser_types) then
        b <- on_world (launch d (browser_name (config self))
                         (headless (config self)) (slow_mo (config self))) ;;
        set_obj (mk (Some d) (Some b) (config self)) ;;;
        ret b
      else raise (AttributeError (browser_name (config self)))
  end.

Definition close_all : M (t * world) unit :=
  self <- get_obj ;;
  match browser self with
  | Some b => on_world (call (BrowserClose b))
  | None => ret tt
  end ;;;
  match playwright self with
  | Some d => on_world (call (Stop d))
  | None => ret tt
  end.

End BrowserManager.

(** ** The scenario runner's objects *)

(** The context handed to hooks and steps: an attribute is [None] until it
    is assigned, and reading it then raises [AttributeError]. *)
Record context := Context {
  config : option Config;
  browser_manager : option BrowserManager.t;
  browser : option nat;
  page : option nat;
  scenario_name : option string;
  login_page : option BasePage.t;
}.

Definition empty_context : context := Context None None None None None None.

Record scenario := Scenario {
  name : string;
  status : string;
}.

Definition attr {A} (field : string) (read : context → option A)
  : M (context * world) A :=
  c <- get_obj ;;
  match read c with
  | Some a => ret a
  | None => raise (AttributeError field)
  end.

Definition assign (update : context → context) : M (context * world) unit :=
  c <- get_obj ;; set_obj (update c).

Definition set_config (v : Config) (c : context) : context :=
  Context (Some v) (browser_manager c) (browser c) (page c) (scenario_name c)
    (login_page c).
Definition set_browser_manager (v : BrowserManager.t) (c : context) : context :=
  Context (config c) (Some v) (browser c) (page c) (scenario_name c)
    (login_page c).
Definition set_browser (v : nat) (c : context) : context :=
  Context (config c) (browser_manager c) (Some v) (page c) (scenario_name c)
    (login_page c).
Definition set_page (v : nat) (c : context) : context :=
  Context (config c) (browser_manager c) (browser c) (Some v) (scenario_name c)
    (login_page c).
Definition set_scenario_name (v : string) (c : context) : context :=
  Context (config c) (browser_manager c) (browser c) (page c) (Some v)
    (login_page c).
Definition set_login_page (v : BasePage.t) (c : context) : context :=
  Context (config c) (browser_manager c) (browser c) (page c) (scenario_name c)
    (Some v).

(** Call a method of [context.browser_manager]: the manager is one object,
    so what the method assigns stays assigned, also when it raises. *)
Definition with_manager {A} (m : M (BrowserManager.t * world) A)
  : M (context * world) A :=
  λ s, match browser_manager (fst s) with
       | None => (Raise (AttributeError "browser_manager"), s)
       | Some bm =>
           let '(a, (bm', w')) := m (bm, snd s) in
           (a, (set_browser_manager bm' (fst s), w'))
       end.

(** ** features/environment.py *)

(** [cfg] is what [Config()] gives. *)
Definition before_all (cfg : Config) : M (context * world) unit :=
  assign (set_config cfg) ;;;
  assign (set_browser_manager (BrowserManager.init cfg)).

Definition before_scenario (sc : scenario) : M (context * world) unit :=
  b <- with_manager BrowserManager.get_browser ;;
  assign (set_browser b) ;;;
  b' <- attr "browser" browser ;;
  p <- on_world (new_page b') ;;
  assign (set_page p) ;;;
  p' <- attr "page" page ;;
  on_world (call (SetDefaultTimeout p' 30000%Z)) ;;;
  assign (set_scenario_name (name sc)).

Definition screenshot_path (sc : scenario) : string :=
  "screenshots/" +:+ replace " " "_" (name sc) +:+ ".png".

Definition after_scenario (sc : scenario) : M (context * world) unit :=
  (if bool_decide (status sc = "failed") then
     p <- attr "page" page ;;
     on_world (call (Screenshot p (screenshot_path sc))) ;;;
     on_world (call (PrintLine ("Screenshot saved: " +:+ screenshot_path sc)))
   else ret tt) ;;;
  c <- get_obj ;;
  match page c with
  | Some p => on_world (call (PageClose p))
  | None => ret tt
  end.

Definition after_all : M (context * world) unit :=
  c <- get_obj ;;
  match browser_manager c with
  | Some _ => with_manager BrowserManager.close_all
  | None => ret tt
  end.

(** ** features/steps/common_steps.py *)

Definition step_navigate_to_page (page_name : string) : M (context * world) unit :=
  cfg <- attr "config" config ;;
  let url_map : gmap string string :=
    <["login" := base_url cfg +:+ "/login"]>
    (<["dashboard" := base_url cfg +:+ "/dashboard"]>
    (<["home" := base_url cfg]> ∅)) in
  p <- attr "page" page ;;
  let base_page := BasePage.new p in
  on_world (BasePage.navigate_to base_page
              (default (base_url cfg) (url_map !! lower page_name))) ;;;
  on_world (BasePage.wait_for_load_state_default base_page).

Definition step_click_element (element_text : string) : M (context * world) unit :=
  p <- attr "page" page ;;
  on_world (call (Click p ("text=" +:+ element_text))).

Definition step_verify_text_present (text : string) : M (context * world) unit :=
  p <- attr "page" page ;;
  shown <- on_world (BasePage.is_visible (BasePage.new p) ("text=" +:+ text)) ;;
  if shown : bool then ret tt
  else raise (AssertionError ("Text '" +:+ text +:+ "' not found on page")).

(** ** features/steps/login_steps.py *)

Definition step_navigate_to_login : M (context * world) unit :=
  p <- attr "page" page ;;
  let lp := BasePage.new p in
  cfg <- attr "config" config ;;
  on_world (BasePage.navigate_to lp (base_url cfg +:+ "/login")) ;;;
  assign (set_login_page lp).

Definition step_enter_credentials (username password : string)
  : M (context * world) unit :=
  lp <- attr "login_page" login_page ;;
  on_world (LoginPage.login lp username password).

Definition step_click_login : M (context * world) unit :=
  lp <- attr "login_page" login_page ;;
  on_world (BasePage.click lp LoginPage.LOGIN_BUTTON).

Definition error_not_found (error_message actual_error : string) : string :=
  "Expected error '" +:+ error_message +:+ "' not found in '" +:+
  actual_error +:+ "'".

Definition step_verify_error_message (error_message : string)
  : M (context * world) unit :=
  lp <- attr "login_page" login_page ;;
  actual_error <- on_world (LoginPage.get_error_message lp) ;;
  match actual_error with
  | VStr actual =>
      if py_in error_message actual then ret tt
      else raise (AssertionError (error_not_found error_message actual))
  | VNone => raise (TypeError "argument of type 'NoneType' is not iterable")
  end.

(** ** features/steps: the registered phrases *)

(** A phrase pattern is literal text with named fields, as the decorators
    [@given], [@when] and [@then] receive it. *)
Inductive segment :=
| Lit (text : string)
| Field (name : string).

Inductive keyword := Given | When | Then.

Global Instance keyword_eq_dec : EqDecision keyword.
Proof. solve_decision. Defined.

Fixpoint skip (n : nat) (s : string) : string :=
  match n, s with
  | S n', String _ r => skip n' r
  | _, _ => s
  end.

(** The runner binds a field to the shortest non-empty text after which the
    rest of the pattern matches the rest of the phrase. *)
Fixpoint shortest (rest : string → option (list string)) (taken s : string)
  : option (list string) :=
  match s with
  | EmptyString => None
  | String c r =>
      let taken' := taken +:+ String c "" in
      match rest r with
      | Some bound => Some (taken' :: bound)
      | None => shortest rest taken' r
      end
  end.

(** A pattern matches a whole phrase; literal text is compared without
    regard to letter case. *)
Fixpoint match_pattern (pat : list segment) (s : string) : option (list string) :=
  match pat with
  | [] => if bool_decide (s = "") then Some [] else None
  | Lit l :: pat' =>
      if startswith (lower l) (lower s)
      then match_pattern pat' (skip (String.length l) s)
      else None
  | Field _ :: pat' => shortest (match_pattern pat') "" s
  end.

Definition quoted (field : string) : list segment :=
  [Lit dq; Field field; Lit dq].

Definition common_steps : list (keyword * list segment * string) :=
  [ (Given, Lit "I am on the " :: quoted "page_name" ++ [Lit " page"],
     "step_navigate_to_page");
    (When, Lit "I click on " :: quoted "element_text", "step_click_element");
    (Then, Lit "I should see " :: quoted "text" ++ [Lit " on the page"],
     "step_verify_text_present");
    (Then, Lit "I should be redirected to " :: quoted "expected_url",
     "step_verify_url") ].

Definition login_steps : list (keyword * list segment * string) :=
  [ (Given, [Lit "I am on the login page"], "step_navigate_to_login");
    (When, Lit "I enter username " :: quoted "username" ++
           Lit " and password " :: quoted "password",
     "step_enter_credentials");
    (When, [Lit "I click the login button"], "step_click_login");
    (Then, Lit "I should see an error message " :: quoted "error_message",
     "step_verify_error_message");
    (Then, [Lit "I should be successfully logged in"],
     "step_verify_successful_login") ].

Definition navigation_steps : list (keyword * list segment * string) :=
  [ (Given, Lit "I navigate to " :: quoted "url", "step_navigate_to_url");
    (When, [Lit "I go back in browser history"], "step_go_back");
    (When, [Lit "I go forward in browser history"], "step_go_forward");
    (When, [Lit "I refresh the page"], "step_refresh_page");
    (When, Lit "I click the link " :: quoted "link_text", "step_click_link");
    (When, Lit "I click the button " :: quoted "button_text",
     "step_click_button");
    (When, Lit "I click the element with id " :: quoted "element_id",
     "step_click_by_id");
    (When, Lit "I click the element with class " :: quoted "class_name",
     "step_click_by_class");
    (When, Lit "I hover over " :: quoted "element_text", "step_hover_element");
    (When, Lit "I scroll to " :: quoted "element_text",
     "step_scroll_to_element");
    (When, Lit "I wait for " :: quoted "seconds" ++ [Lit " seconds"],
     "step_wait_seconds");
    (When, Lit "I wait for the element " :: quoted "selector" ++
           [Lit " to appear"], "step_wait_for_element");
    (When, Lit "I wait for the element " :: quoted "selector" ++
           [Lit " to disappear"], "step_wait_for_element_hidden");
    (Then, Lit "I should be on the " :: quoted "expected_page" ++
           [Lit " page"], "step_verify_current_page");
    (Then, Lit "the page title should be " :: quoted "expected_title",
     "step_verify_page_title");
    (Then, Lit "the element " :: quoted "selector" ++
           [Lit " should be visible"], "step_verify_element_visible");
    (Then, Lit "the element " :: quoted "selector" ++
           [Lit " should not be visible"], "step_verify_element_not_visible");
    (Then, Lit "the element " :: quoted "selector" ++
           Lit " should contain text " :: quoted "expected_text",
     "step_verify_element_text");
    (Then, Lit "the current URL should contain " :: quoted "url_fragment",
     "step_verify_url_contains");
    (Then, Lit "I should see a link to " :: quoted "link_text",
     "step_verify_link_exists");
    (Then, Lit "I should see a button labeled " :: quoted "button_text",
     "step_verify_button_exists") ].

(** features/steps/__init__.py imports the three modules in this order. *)
Definition registry : list (keyword * list segment * string) :=
  common_steps ++ login_steps ++ navigation_steps.

(** Every registered function a phrase of that kind matches, with the text
    bound to its fields, in registration order. *)
Definition matches (kw : keyword) (phrase : string)
  : list (string * list string) :=
  omap (λ '(k, pat, fn),
          if bool_decide (k = kw)
          then (λ args, (fn, args)) <$> match_pattern pat phrase
          else None) registry.

(** The runner takes the first of them. *)
Definition find_match (kw : keyword) (phrase : string)
  : option (string * list string) :=
  head (matches kw phrase).

(** The step functions embedded here, by name. *)
Definition step_function (fn : string) (args : list string)
  : option (M (context * world) unit) :=
  if bool_decide (fn = "step_navigate_to_page") then
    match args with [a] => Some (step_navigate_to_page a) | _ => None end
  else if bool_decide (fn = "step_click_element") then
    match args with [a] => Some (step_click_element a) | _ => None end
  else if bool_decide (fn = "step_verify_text_present") then
    match args with [a] => Some (step_verify_text_present a) | _ => None end
  else if bool_decide (fn = "step_navigate_to_login") then
    match args with [] => Some step_navigate_to_login | _ => None end
  else if bool_decide (fn = "step_enter_credentials") then
    match args with [a; b] => Some (step_enter_credentials a b) | _ => None end
  else if bool_decide (fn = "step_click_login") then
    match args with [] => Some step_click_login | _ => None end
  else if bool_decide (fn = "step_verify_error_message") then
    match args with [a] => Some (step_verify_error_message a) | _ => None end
  else None.

(** One step of a scenario: [None] when the phrase selects a function that
    is not embedded here; a phrase no pattern matches is an undefined step. *)
Definition run_step (kw : keyword) (phrase : string)
  : option (M (context * world) unit) :=
  match find_match kw phrase with
  | Some (fn, args) => step_function fn args
  | None => Some (raise (UndefinedStep phrase))
  end.

(** The steps of a scenario run in order; the first one that raises ends
    the run and the steps after it are not executed. *)
Fixpoint run_steps (steps : list (keyword * string))
  : option (M (context * world) unit) :=
  match steps with
  | [] => Some (ret tt)
  | (kw, phrase) :: rest =>
      match run_step kw phrase, run_steps rest with
      | Some m, Some k => Some (m ;;; k)
      | _, _ => None
      end
  end.

(** ** Vocabulary of the statements *)

(** The world after the library has served further calls. *)
Definition extend (w : world) (es : list event) : world :=
  foldl (λ w' e, record e w') w es.

(** The browser processes a list of calls has launched. *)
Definition launched (es : list event) : list nat :=
  omap (λ e, match e with Launch _ _ _ _ (Some b) => Some b | _ => None end) es.

(** The calls that release a resource. *)
Definition is_release (e : event) : bool :=
  match e with BrowserClose _ | Stop _ => true | _ => false end.

Definition releases (es : list event) : list event := filter is_release es.

(** What one [close_all] has to release, given what the manager holds. *)
Definition held (bm : BrowserManager.t) : list event :=
  match BrowserManager.browser bm with
  | Some b => [BrowserClose b]
  | None => []
  end ++
  match BrowserManager.playwright bm with
  | Some d => [Stop d]
  | None => []
  end.

(** [n] calls of [get_browser] on one manager, each with its own outcome:
    a caller may go on after a call has raised. *)
Fixpoint get_browser_times (n : nat) (s : BrowserManager.t * world)
  : list (outcome nat) * (BrowserManager.t * world) :=
  match n with
  | 0 => ([], s)
  | S n' =>
      let '(r, s1) := BrowserManager.get_browser s in
      let '(rs, s2) := get_browser_times n' s1 in
      (r :: rs, s2)
  end.

(** A world in which nothing has happened yet: every launch succeeds, no
    selector has text, nothing is visible. *)
Definition quiet_world : world :=
  World [] 0 0 (λ _, true) (λ _ _, VNone) (λ _ _, false).

(** A process with the given environment variables and the interpreter's
    default digit limit. *)
Definition process_with (vars : list (string * string)) : process :=
  Process (list_to_map vars) 4300.

(** The text of a selector as a string: absent text reads as empty. *)
Definition text_or_empty (v : value) : string :=
  match v with VStr s => s | VNone => "" end.

(** The value of a run of decimal digits. *)
Definition decimal_value (cs : list ascii) : Z :=
  foldl (λ a c, (10 * a + digit_value c)%Z) 0%Z cs.

(** The environment variables read through [int()], in the order the class
    body reads them. *)
Definition numeric_variables : list string := ["SLOW_MO"; "TIMEOUT"].

(** End-to-end scenario 1 of the specification. *)
Definition scenario_1 : list (keyword * string) :=
  [ (Given, "I am on the " +:+ dq +:+ "login" +:+ dq +:+ " page");
    (When, "I enter username " +:+ dq +:+ "alice" +:+ dq +:+
           " and password " +:+ dq +:+ "secret" +:+ dq);
    (When, "I click the login button") ].

(** The same steps after the unquoted navigation phrase of login_steps.py. *)
Definition scenario_1_unquoted : list (keyword * string) :=
  [ (Given, "I am on the login page");
    (When, "I enter username " +:+ dq +:+ "alice" +:+ dq +:+
           " and password " +:+ dq +:+ "secret" +:+ dq);
    (When, "I click the login button") ].

(** A world whose pages answer [text] for every selector. *)
Definition world_showing (text : string) : world :=
  World [] 0 0 (λ _, true) (λ _ _, VStr text) (λ _ _, true).

(** A scenario context as the steps of a login scenario find it: a
    configuration, a page, and a login page object on that page. *)
Definition login_context (cfg : Config) (p : nat) : context :=
  Context (Some cfg) None None (Some p) None (Some (BasePage.new p)).

Definition default_config : Config :=
  mkConfig "chromium" false 0 "https://example.com" 30000 "testuser" "testpass".

(** ** Further functions of the sources *)

(** *** config/settings.py *)

(** [os.getenv(key)] without a default: [None] when the variable is unset. *)
Definition getenv_opt (p : process) (key : string) : value :=
  match environ p !! key with
  | Some s => VStr s
  | None => VNone
  end.

Definition ci_indicators : list string :=
  ["CI"; "CONTINUOUS_INTEGRATION"; "GITHUB_ACTIONS"; "JENKINS_URL"].

(** [any(os.getenv(indicator) for indicator in ci_indicators)]. *)
Definition is_ci_environment (p : process) : bool :=
  existsb (λ indicator, truthy (getenv_opt p indicator)) ci_indicators.

(** *** features/support/page_objects/dashboard_page.py *)

(** [a and b] evaluates [b] only when [a] is true. *)
Definition is_dashboard_loaded (self : BasePage.t) : M world bool :=
  main <- BasePage.is_visible self DashboardPage.MAIN_CONTENT ;;
  if main : bool then BasePage.is_visible self DashboardPage.NAVIGATION_BAR
  else ret false.

Definition click_user_menu (self : BasePage.t) : M world unit :=
  BasePage.click self DashboardPage.USER_MENU.

Definition click_profile_link (self : BasePage.t) : M world unit :=
  BasePage.click self DashboardPage.PROFILE_LINK.

(** *** features/steps/navigation_steps.py *)

(** The conditional expression reads [context.config] only when the URL
    does not start with [http]. *)
Definition step_navigate_to_url (url : string) : M (context * world) unit :=
  p <- attr "page" page ;;
  let base_page := BasePage.new p in
  full_url <- (if startswith "http" url then ret url
               else cfg <- attr "config" config ;; ret (base_url cfg +:+ url)) ;;
  on_world (BasePage.navigate_to base_page full_url) ;;;
  on_world (BasePage.wait_for_load_state_default base_page).

Definition step_click_link (link_text : string) : M (context * world) unit :=
  p <- attr "page" page ;;
  on_world (call (Click p ("a:has-text('" +:+ link_text +:+ "')"))).

Definition step_click_button (button_text : string)
  : M (context * world) unit :=
  p <- attr "page" page ;;
  on_world (call (Click p ("button:has-text('" +:+ button_text +:+ "')"))).

Definition step_click_by_id (element_id : string) : M (context * world) unit :=
  p <- attr "page" page ;;
  on_world (call (Click p ("#" +:+ element_id))).

Definition step_click_by_class (class_name : string)
  : M (context * world) unit :=
  p <- attr "page" page ;;
  on_world (call (Click p ("." +:+ class_name))).

Definition step_wait_for_element (selector : string)
  : M (context * world) unit :=
  p <- attr "page" page ;;
  on_world (call (WaitForSelector p selector None (Some 30000%Z))).

Definition step_wait_for_element_hidden (selector : string)
  : M (context * world) unit :=
  p <- attr "page" page ;;
  on_world (call (WaitForSelector p selector (Some "hidden") (Some 30000%Z))).

(** [context.page.url], a property read that makes no call, is what
    [url_of] answers for the page. *)
Definition step_verify_current_page (url_of : nat → string)
    (expected_page : string) : M (context * world) unit :=
  let url_patterns : gmap string string :=
    <["home" := ""]>
    (<["login" := "/login"]>
    (<["dashboard" := "/dashboard"]>
    (<["profile" := "/profile"]>
    (<["settings" := "/settings"]> ∅)))) in
  let expected_pattern :=
    default ("/" +:+ expected_page) (url_patterns !! lower expected_page) in
  p <- attr "page" page ;;
  let current_url := url_of p in
  if py_in expected_pattern current_url then ret tt
  else raise (AssertionError
                ("Expected to be on '" +:+ expected_page +:+
                 "' page (URL containing '" +:+ expected_pattern +:+
                 "'), but current URL is '" +:+ current_url +:+ "'")).

Definition step_verify_element_visible (selector : string)
  : M (context * world) unit :=
  p <- attr "page" page ;;
  shown <- on_world (BasePage.is_visible (BasePage.new p) selector) ;;
  if shown : bool then ret tt
  else raise (AssertionError ("Element '" +:+ selector +:+ "' is not visible")).

Definition step_verify_element_not_visible (selector : string)
  : M (context * world) unit :=
  p <- attr "page" page ;;
  shown <- on_world (BasePage.is_visible (BasePage.new p) selector) ;;
  if negb shown then ret tt
  else raise (AssertionError
                ("Element '" +:+ selector +:+ "' is visible but shouldn't be")).

Definition element_text_mismatch (selector expected_text actual_text : string)
  : string :=
  "Expected element '" +:+ selector +:+ "' to contain '" +:+ expected_text +:+
  "', but actual text is '" +:+ actual_text +:+ "'".

Definition step_verify_element_text (selector expected_text : string)
  : M (context * world) unit :=
  p <- attr "page" page ;;
  v <- on_world (BasePage.text_content (BasePage.new p) selector) ;;
  match py_or v (VStr "") with
  | VStr actual_text =>
      if py_in expected_text actual_text then ret tt
      else raise (AssertionError
                    (element_text_mismatch selector expected_text actual_text))
  | VNone => raise (TypeError "argument of type 'NoneType' is not iterable")
  end.

(** *** features/support/helpers.py *)

(** The moment [datetime.now()] answers. *)
Record datetime := Datetime {
  year : nat;
  month : nat;
  day : nat;
  hour : nat;
  minute : nat;
  second : nat;
  microsecond : nat;
}.

Definition digit_char (d : nat) : ascii := chr (48 + d).

(** A field of at most two digits, padded with a zero. *)
Definition two_digits (n : nat) : string :=
  String (digit_char (n `div` 10)) (String (digit_char (n `mod` 10)) "").

(** [strftime("%Y%m%d_%H%M%S")]; the year is written without padding, as
    the C library does; from the year 1000 on padding changes nothing. *)
Definition strftime_compact (t : datetime) : string :=
  pretty (year t) +:+ two_digits (month t) +:+ two_digits (day t) +:+ "_" +:+
  two_digits (hour t) +:+ two_digits (minute t) +:+ two_digits (second t).

(** [now] is what [datetime.now()] answers. *)
Definition generate_timestamp (now : datetime) : string := strftime_compact now.

Definition generate_unique_email (now : datetime) : string :=
  "test_user_" +:+ generate_timestamp now +:+ "@example.com".

(** [for p in pages[1:]: p.close()]; [pages] is what [page.context.pages]
    answers. *)
Fixpoint close_each (ps : list nat) : M world unit :=
  match ps with
  | [] => ret tt
  | p :: rest => call (PageClose p) ;;; close_each rest
  end.

Definition close_extra_tabs (pages : list nat) : M world unit :=
  close_each (drop 1 pages).

(** [pages[-1]] when there is more than one page, else the page given. *)
Definition switch_to_new_tab (page : nat) (pages : list nat) : nat :=
  if 1 <? length pages then default page (last pages) else page.

(** White space as [str.split()] sees it. *)
Definition is_whitespace (c : ascii) : bool :=
  let n := code c in
  ((9 <=? n) && (n <=? 13)) || ((28 <=? n) && (n <=? 32)) ||
  (n =? 133) || (n =? 160).

(** [s.split()]: the maximal runs of characters that are no white space;
    [cur] is the run read so far. *)
Fixpoint split_go (cur : string) (s : string) : list string :=
  match s with
  | EmptyString => if bool_decide (cur = "") then [] else [cur]
  | String c r =>
      if is_whitespace c then
        if bool_decide (cur = "") then split_go "" r
        else cur :: split_go "" r
      else split_go (cur +:+ String c "") r
  end.

Definition split (s : string) : list string := split_go "" s.

(** [class_attr] is what [element.get_attribute("class")] answers. *)
Definition assert_element_has_class (class_attr : value)
    (selector expected_class : string) : outcome unit :=
  match py_or class_attr (VStr "") with
  | VStr class_list =>
      if bool_decide (expected_class ∈ split class_list) then Ok tt
      else Raise (AssertionError
                    ("Element " +:+ selector +:+ " does not have class '" +:+
                     expected_class +:+ "'. Current classes: " +:+ class_list))
  | VNone => Raise (AttributeError "split")
  end.

(** The fields of a calendar date and a time of day are in these ranges. *)
Definition in_range (t : datetime) : Prop :=
  month t ≤ 12 ∧ day t ≤ 31 ∧ hour t < 24 ∧ minute t < 60 ∧ second t < 60.

(** A string without white space. *)
Definition solid (s : string) : Prop :=
  Forall (λ c, is_whitespace c = false) (list_ascii_of_string s).

(** *** The hooks of a whole run *)

(** The scenarios of a run, one after the other, each between its two
    hooks. *)
Fixpoint run_scenarios (scs : list scenario) : M (context * world) unit :=
  match scs with
  | [] => ret tt
  | sc :: rest =>
      before_scenario sc ;;; after_scenario sc ;;; run_scenarios rest
  end.

Definition run_hooks (cfg : Config) (scs : list scenario)
  : M (context * world) unit :=
  before_all cfg ;;; run_scenarios scs ;;; after_all.

(** The calls the hooks of one scenario make on browser [b] when its page
    is [p]. *)
Definition scenario_calls (b p : nat) (sc : scenario) : list event :=
  [NewPage b p; SetDefaultTimeout p 30000%Z] ++
  (if bool_decide (status sc = "failed")
   then [ Screenshot p (screenshot_path sc);
          PrintLine ("Screenshot saved: " +:+ screenshot_path sc) ]
   else []) ++
  [PageClose p].

Fixpoint scenarios_calls (b p : nat) (scs : list scenario) : list event :=
  match scs with
  | [] => []
  | sc :: rest => scenario_calls b p sc ++ scenarios_calls b (S p) rest
  end.

(** ** Facts about the primitives *)

(** A string literal is none of the literals of a list. *)
Ltac not_in :=
  repeat (apply not_elem_of_cons; split; [discriminate|]); apply not_elem_of_nil.

(** Unfold the sequencing of a computation applied to a state. *)
Ltac run :=
  cbv beta iota zeta delta
    [bind ret raise attr assign get_obj set_obj on_world call fst snd].

Lemma calls_extend (w : world) (es : list event) :
  calls (extend w es) = calls w ++ es.
Proof.
  revert w. induction es as [|e es IH]; intros w; simpl.
  - by rewrite app_nil_r.
  - rewrite IH. simpl. by rewrite <- app_assoc.
Qed.

Lemma added_app (w w' : world) (es : list event) :
  calls w' = calls w ++ es → added w w' = es.
Proof. intros E. unfold added. rewrite E. by rewrite drop_app_length. Qed.

Lemma added_extend (w : world) (es : list event) : added w (extend w es) = es.
Proof. apply added_app, calls_extend. Qed.

Lemma next_id_extend (w : world) (es : list event) :
  next_id (extend w es) = next_id w.
Proof. revert w. induction es as [|e es IH]; intros w; simpl; [done|]. by rewrite IH. Qed.

Lemma append_nil (t : string) : "" +:+ t = t.
Proof. reflexivity. Qed.

Lemma append_cons (a : ascii) (s t : string) :
  String a s +:+ t = String a (s +:+ t).
Proof. reflexivity. Qed.

Lemma append_assoc (r s t : string) : (r +:+ s) +:+ t = r +:+ (s +:+ t).
Proof.
  induction r as [|a r IH]; [done|].
  rewrite !append_cons. by rewrite IH.
Qed.

(** [startswith] decides whether the string begins with the prefix. *)
Lemma startswith_spec (p s : string) :
  startswith p s = true ↔ ∃ post, s = p +:+ post.
Proof.
  revert s. induction p as [|a p IH]; intros s; simpl.
  - split; [intros _; by exists s | done].
  - destruct s as [|b s].
    + split; [done | intros [post E]; rewrite append_cons in E; discriminate].
    + rewrite andb_true_iff, bool_decide_eq_true, IH. split.
      * intros [-> [post ->]]. by exists post.
      * intros [post E]. rewrite append_cons in E. injection E as -> ->. eauto.
Qed.

(** [py_in] decides whether the first string occurs inside the second. *)
Lemma py_in_spec (sub s : string) :
  py_in sub s = true ↔ ∃ pre post, s = pre +:+ sub +:+ post.
Proof.
  induction s as [|c s IH]; simpl.
  - rewrite orb_false_r, startswith_spec. split.
    + intros [post E]. by exists "", post.
    + intros [pre [post E]]. destruct pre as [|a pre]; [by exists post|].
      rewrite append_cons in E. discriminate.
  - rewrite orb_true_iff, startswith_spec, IH. split.
    + intros [[post E] | [pre [post E]]].
      * by exists "", post.
      * exists (String c pre), post. by rewrite append_cons, E.
    + intros [pre [post E]]. destruct pre as [|a pre].
      * left. by exists post.
      * right. rewrite append_cons in E. injection E as -> ->. eauto.
Qed.

Lemma py_in_refl (s : string) : py_in s s = true.
Proof.
  apply py_in_spec. exists "", "". rewrite append_nil.
  induction s as [|a s IH]; [done|]. rewrite append_cons. by rewrite <- IH.
Qed.

Lemma py_in_middle (pre s post : string) : py_in s (pre +:+ s +:+ post) = true.
Proof. apply py_in_spec. eauto. Qed.

(** The assertion message of [step_verify_error_message] quotes both
    strings. *)
Lemma error_not_found_quotes (expected actual : string) :
  py_in expected (error_not_found expected actual) = true ∧
  py_in actual (error_not_found expected actual) = true.
Proof.
  unfold error_not_found. split.
  - apply py_in_middle.
  - apply py_in_spec.
    exists ("Expected error '" +:+ expected +:+ "' not found in '"), "'".
    by rewrite !append_assoc.
Qed.

(** [or ""] turns an absent text into the empty string and keeps a string. *)
Lemma py_or_empty (v : value) : py_or v (VStr "") = VStr (text_or_empty v).
Proof.
  destruct v as [|s]; [done|]. unfold py_or. simpl.
  case_bool_decide; simpl; [by subst | done].
Qed.

Lemma get_text_run (self : BasePage.t) (selector : string) (w : world) :
  BasePage.get_text self selector w =
    (Ok (VStr (text_or_empty (text_of w (BasePage.page self) selector))),
     extend w [TextContent (BasePage.page self) selector]).
Proof. unfold BasePage.get_text, bind, ret. simpl. by rewrite py_or_empty. Qed.

(** A single-character [replace] leaves no occurrence of the old character
    and keeps the length. *)
Lemma replace_length (old new : ascii) (s : string) :
  String.length (replace old new s) = String.length s.
Proof. induction s as [|c s IH]; simpl; [done|]. by rewrite IH. Qed.


(** ** The page objects *)

(** C8: [DashboardPage.load_data] makes exactly three calls, in this order:
    a click on the load-data button, a wait for the spinner with timeout
    5000 and no state given (the library then waits for it to be visible),
    and a wait for the spinner to be hidden with timeout 30000.  Nothing
    else happens and nothing is retried. *)
Theorem load_data_calls (self : BasePage.t) (w : world) :
  DashboardPage.load_data self w =
    (Ok tt,
     extend w
       [ Click (BasePage.page self) "button:has-text('Load Data')";
         WaitForSelector (BasePage.page self) ".loading-spinner" None
           (Some 5000%Z);
         WaitForSelector (BasePage.page self) ".loading-spinner"
           (Some "hidden") (Some 30000%Z) ]) ∧
  effective_state None = "visible".
Proof. by repeat split. Qed.

(** C9: [BasePage.get_text] answers a string for every selector, never
    [None]: the text content when there is one, and the empty string when
    the page answers [None]. *)
Theorem get_text_is_string (self : BasePage.t) (selector : string) (w : world) :
  fst (BasePage.get_text self selector w) =
    Ok (VStr (match text_of w (BasePage.page self) selector with
              | VStr s => s
              | VNone => ""
              end)).
Proof. by rewrite get_text_run. Qed.

(** ** Teardown of a scenario *)




(** ** The error-message assertion *)

(** C7: with a login page in the context, the step reads the text of the
    [.error-message] locator (empty when absent) and passes exactly when
    the expected string occurs in it, so also when the two are equal;
    otherwise it raises an assertion error whose message contains the
    expected and the actual string. *)
Theorem step_verify_error_message_substring (expected : string) (c : context)
    (w : world) (lp : BasePage.t) :
  login_page c = Some lp →
  let actual := text_or_empty (text_of w (BasePage.page lp) ".error-message") in
  fst (step_verify_error_message expected (c, w)) =
    (if py_in expected actual then Ok tt
     else Raise (AssertionError (error_not_found expected actual))) ∧
  (py_in expected actual = true ↔
     ∃ before after, actual = before +:+ expected +:+ after) ∧
  py_in expected expected = true ∧
  py_in expected (error_not_found expected actual) = true ∧
  py_in actual (error_not_found expected actual) = true.
Proof.
  intros Hlp actual. split; [|split; [apply py_in_spec|split; [apply py_in_refl|]]].
  - unfold step_verify_error_message. run. rewrite Hlp. run.
    unfold LoginPage.get_error_message. rewrite get_text_run.
    change LoginPage.ERROR_MESSAGE with ".error-message". fold actual.
    by destruct (py_in expected actual).
  - apply error_not_found_quotes.
Qed.

(** The expected text against a page that shows "Login failed". *)
Lemma step_verify_error_message_substring_witness :
  fst (step_verify_error_message "Invalid credentials"
         (login_context default_config 2, world_showing "Login failed")) =
    Raise (AssertionError
             "Expected error 'Invalid credentials' not found in 'Login failed'").
Proof.
  exact (proj1 (step_verify_error_message_substring "Invalid credentials"
                  (login_context default_config 2)
                  (world_showing "Login failed") (BasePage.new 2) eq_refl)).
Defined.

(** The three cases of end-to-end scenario 2. *)
Example error_message_cases :
  fst (step_verify_error_message "Invalid credentials"
         (login_context default_config 2,
          world_showing "Invalid credentials")) = Ok tt ∧
  fst (step_verify_error_message "Invalid credentials"
         (login_context default_config 2,
          world_showing "Invalid credentials provided")) = Ok tt ∧
  is_ok (fst (step_verify_error_message "Invalid credentials"
                (login_context default_config 2,
                 world_showing "Login failed"))) = false.
Proof. by vm_compute. Qed.

(** ** Loading the configuration *)

Lemma py_int_raise (limit : nat) (s : string) (e : exn) :
  py_int limit s = Raise e →
  e = ValueError (InvalidLiteral s) ∨
  ∃ n, 640 < n ∧ e = ValueError (ExceedsDigitLimit n).
Proof.
  unfold py_int.
  destruct (split_sign (lstrip (list_ascii_of_string s))) as [negative ds].
  destruct (magnitude limit s ds) as [v|e'] eqn:Em; [discriminate|].
  intros [= <-]. revert Em. unfold magnitude.
  destruct ds as [|c ds]; [left; congruence|].
  case_bool_decide; [left; congruence|].
  destruct (scan 0 0 false (c :: ds)) as [[[v count] rest]|]; [|left; congruence].
  destruct (exceeds_limit limit count) eqn:El.
  - intros [= <-]. right. exists count. split; [|done].
    unfold exceeds_limit in El. apply andb_true_iff in El as [El _].
    apply andb_true_iff in El as [El _]. by apply Nat.ltb_lt in El.
  - destruct ((count =? 0) || _); [left; congruence|discriminate].
Qed.

Lemma py_int_default_slow_mo (limit : nat) : py_int limit "0" = Ok 0%Z.
Proof. reflexivity. Qed.

Lemma py_int_default_timeout (limit : nat) : py_int limit "30000" = Ok 30000%Z.
Proof. reflexivity. Qed.

Lemma lstrip_keeps (c : ascii) (cs : list ascii) :
  c ∈ cs → is_space c = false → c ∈ lstrip cs.
Proof.
  intros Hin Hs. induction cs as [|a cs IH]; [done|].
  simpl. destruct (is_space a) eqn:Ea; [|done].
  apply elem_of_cons in Hin as [->|Hin]; [congruence|by apply IH].
Qed.

(** What is neither a digit nor an underscore is left over by [scan]. *)
Lemma scan_keeps (c : ascii) (cs rest : list ascii) (acc v : Z)
    (count k : nat) (prev : bool) :
  scan acc count prev cs = Some (v, k, rest) →
  c ∈ cs → is_digit c = false → c ≠ "_"%char → c ∈ rest.
Proof.
  intros Hs Hin Hd Hu. revert acc count prev Hs.
  induction cs as [|a cs IH]; intros acc count prev Hs;
    [by apply elem_of_nil in Hin|].
  simpl in Hs. destruct (is_digit a) eqn:Ea.
  - apply elem_of_cons in Hin as [->|Hin]; [congruence|]. by eapply IH.
  - case_bool_decide.
    + destruct prev; [discriminate|].
      apply elem_of_cons in Hin as [->|Hin]; [congruence|]. by eapply IH.
    + destruct prev; [discriminate|]. by injection Hs as _ _ <-.
Qed.

Lemma magnitude_rejects (limit : nat) (s : string) (ds : list ascii)
    (c : ascii) :
  c ∈ ds → is_digit c = false → is_space c = false → c ≠ "_"%char →
  is_ok (magnitude limit s ds) = false.
Proof.
  intros Hc Hd Hs Hu. unfold magnitude.
  destruct ds as [|x ds]; [done|].
  case_bool_decide; [done|].
  destruct (scan 0 0 false (x :: ds)) as [[[v count] rest]|] eqn:Es; [|done].
  destruct (exceeds_limit limit count); [done|].
  pose proof (scan_keeps c _ _ _ _ _ _ _ Es Hc Hd Hu) as Hr.
  apply lstrip_keeps in Hr; [|done].
  rewrite (bool_decide_eq_false_2 (lstrip rest = [])).
  - by rewrite orb_true_r.
  - intros E. rewrite E in Hr. by apply elem_of_nil in Hr.
Qed.

(** A character that is no digit, no sign, no underscore and no white space
    makes [int()] reject the string. *)
Lemma py_int_rejects (limit : nat) (s : string) (c : ascii) :
  c ∈ list_ascii_of_string s →
  is_digit c = false → is_space c = false →
  c ≠ "_"%char → c ≠ "+"%char → c ≠ "-"%char →
  is_ok (py_int limit s) = false.
Proof.
  intros Hin Hd Hs Hu Hp Hm. unfold py_int.
  pose proof (lstrip_keeps c _ Hin Hs) as Hb.
  assert (c ∈ snd (split_sign (lstrip (list_ascii_of_string s)))) as Hds.
  { destruct (lstrip (list_ascii_of_string s)) as [|a r]; [done|].
    simpl. repeat case_bool_decide; subst; simpl; try done.
    - apply elem_of_cons in Hb as [->|Hb]; done.
    - apply elem_of_cons in Hb as [->|Hb]; done. }
  destruct (split_sign _) as [negative ds]. simpl in Hds.
  pose proof (magnitude_rejects limit s ds c Hds Hd Hs Hu) as Hmag.
  by destruct (magnitude limit s ds).
Qed.

Lemma is_digit_plain (c : ascii) :
  is_digit c = true →
  is_space c = false ∧ c ≠ "-"%char ∧ c ≠ "+"%char ∧ c ≠ "_"%char.
Proof.
  destruct c as [[] [] [] [] [] [] [] []]; vm_compute; intros H;
    try discriminate H; repeat split; discriminate.
Qed.

Lemma scan_digits (cs : list ascii) (acc : Z) (count : nat) :
  Forall (λ c, is_digit c = true) cs →
  scan acc count false cs =
    Some (foldl (λ a c, (10 * a + digit_value c)%Z) acc cs,
          count + length cs, []).
Proof.
  intros H. revert acc count. induction H as [|c cs Hc _ IH]; intros acc count.
  - simpl. by rewrite Nat.add_0_r.
  - simpl. rewrite Hc, IH. by rewrite Nat.add_succ_r.
Qed.

(** A non-empty string of at most 640 digits is accepted, with its decimal
    value, whatever the limit is. *)
Lemma py_int_accepts_digits (limit : nat) (s : string) :
  s ≠ "" →
  Forall (λ c, is_digit c = true) (list_ascii_of_string s) →
  String.length s ≤ 640 →
  py_int limit s = Ok (decimal_value (list_ascii_of_string s)).
Proof.
  intros Hne Hall Hlen. unfold py_int, magnitude.
  assert (length (list_ascii_of_string s) = String.length s) as Hl.
  { clear. induction s as [|a s IH]; simpl; [done|]. by rewrite IH. }
  destruct (list_ascii_of_string s) as [|a r] eqn:Ecs.
  { destruct s; [done|discriminate]. }
  pose proof (Forall_inv Hall) as Ha. simpl in Ha.
  destruct (is_digit_plain a Ha) as (Hs & Hm & Hp & Hu).
  simpl lstrip. rewrite Hs. unfold split_sign.
  rewrite (bool_decide_eq_false_2 (a = "-"%char)) by done.
  rewrite (bool_decide_eq_false_2 (a = "+"%char)) by done.
  rewrite (bool_decide_eq_false_2 (a = "_"%char)) by done.
  rewrite (scan_digits (a :: r) 0 0 Hall).
  assert (exceeds_limit limit (0 + length (a :: r)) = false) as ->.
  { unfold exceeds_limit. rewrite Hl.
    assert ((640 <? 0 + String.length s) = false) as ->; [|done].
    apply Nat.ltb_ge. lia. }
  reflexivity.
Qed.

Lemma getenv_cases (p : process) (key dflt : string) :
  environ p !! key = Some (getenv p key dflt) ∨
  (environ p !! key = None ∧ getenv p key dflt = dflt).
Proof. unfold getenv. destruct (environ p !! key); simpl; auto. Qed.

(** C5: when [SLOW_MO] or [TIMEOUT] is set to a string that [int()] does
    not accept, loading the configuration raises the [ValueError] that
    [int()] raises on the value of one of the two variables, which names
    that value or the number of its digits, and no configuration results;
    the same goes for the [slow_mo] entry of [BROWSER_CONFIG].  When every
    one of the two that is set is accepted, loading yields a configuration
    whose numbers are the parsed values. *)
Theorem Config_load_fail_fast (p : process) :
  (∀ var s,
     var ∈ numeric_variables → environ p !! var = Some s →
     is_ok (py_int (max_str_digits p) s) = false →
     ∃ var' bad why,
       var' ∈ numeric_variables ∧ environ p !! var' = Some bad ∧
       py_int (max_str_digits p) bad = Raise (ValueError why) ∧
       Config_load p = Raise (ValueError why) ∧
       (why = InvalidLiteral bad ∨ ∃ n, why = ExceedsDigitLimit n)) ∧
  (∀ s,
     environ p !! "SLOW_MO" = Some s →
     is_ok (py_int (max_str_digits p) s) = false →
     is_ok (BROWSER_CONFIG_slow_mo p) = false) ∧
  ((∀ var s,
      var ∈ numeric_variables → environ p !! var = Some s →
      is_ok (py_int (max_str_digits p) s) = true) →
   ∃ cfg,
     Config_load p = Ok cfg ∧
     py_int (max_str_digits p) (getenv p "SLOW_MO" "0") = Ok (slow_mo cfg) ∧
     py_int (max_str_digits p) (getenv p "TIMEOUT" "30000") = Ok (timeout cfg)).
Proof.
  pose proof (getenv_cases p "SLOW_MO" "0") as Ha.
  pose proof (getenv_cases p "TIMEOUT" "30000") as Hb.
  unfold Config_load, BROWSER_CONFIG_slow_mo, numeric_variables.
  set (l := max_str_digits p) in *.
  set (a := getenv p "SLOW_MO" "0") in *.
  set (b := getenv p "TIMEOUT" "30000") in *.
  assert (∀ e, py_int l a = Raise e →
               environ p !! "SLOW_MO" = Some a ∧
               ∃ why, e = ValueError why ∧
                      (why = InvalidLiteral a ∨ ∃ n, why = ExceedsDigitLimit n))
    as Ra.
  { intros e E. split.
    - destruct Ha as [Ha|[_ Ha]]; [done|].
      rewrite Ha, py_int_default_slow_mo in E. discriminate.
    - destruct (py_int_raise _ _ _ E) as [->|(n & _ & ->)]; eauto. }
  assert (∀ e, py_int l b = Raise e →
               environ p !! "TIMEOUT" = Some b ∧
               ∃ why, e = ValueError why ∧
                      (why = InvalidLiteral b ∨ ∃ n, why = ExceedsDigitLimit n))
    as Rb.
  { intros e E. split.
    - destruct Hb as [Hb|[_ Hb]]; [done|].
      rewrite Hb, py_int_default_timeout in E. discriminate.
    - destruct (py_int_raise _ _ _ E) as [->|(n & _ & ->)]; eauto. }
  split; [|split].
  - intros var s Hin Hs Hbad.
    destruct (py_int l a) as [x|e] eqn:Ea.
    + destruct (py_int l b) as [y|e] eqn:Eb.
      * exfalso.
        apply elem_of_cons in Hin as [->|Hin];
          [|apply list_elem_of_singleton in Hin as ->].
        -- destruct Ha as [Ha|[Ha _]]; rewrite Ha in Hs; simplify_eq.
           by rewrite Ea in Hbad.
        -- destruct Hb as [Hb|[Hb _]]; rewrite Hb in Hs; simplify_eq.
           by rewrite Eb in Hbad.
      * destruct (Rb e eq_refl) as (Hset & why & -> & Hwhy).
        exists "TIMEOUT", b, why. split; [by right; left|done].
    + destruct (Ra e eq_refl) as (Hset & why & -> & Hwhy).
      exists "SLOW_MO", a, why. split; [by left|done].
  - intros s Hs Hbad.
    destruct Ha as [Ha|[Ha _]]; rewrite Ha in Hs; simplify_eq. done.
  - intros Hall.
    destruct (py_int l a) as [x|e] eqn:Ea.
    + destruct (py_int l b) as [y|e] eqn:Eb; [eauto|].
      destruct (Rb e eq_refl) as [Hset _].
      specialize (Hall "TIMEOUT" b). rewrite Eb in Hall.
      discriminate Hall; [by right; left|done].
    + destruct (Ra e eq_refl) as [Hset _].
      specialize (Hall "SLOW_MO" a). rewrite Ea in Hall.
      discriminate Hall; [by left|done].
Qed.

(** Malformed and well-formed environments. *)
Example Config_load_cases :
  Config_load (process_with [("TIMEOUT", "30s")]) =
    Raise (ValueError (InvalidLiteral "30s")) ∧
  Config_load (process_with [("SLOW_MO", "fast"); ("TIMEOUT", "1.5")]) =
    Raise (ValueError (InvalidLiteral "fast")) ∧
  BROWSER_CONFIG_slow_mo (process_with [("SLOW_MO", "")]) =
    Raise (ValueError (InvalidLiteral "")) ∧
  Config_load (process_with []) = Ok default_config ∧
  Config_load (process_with [("SLOW_MO", " 250 "); ("TIMEOUT", "5_000")]) =
    Ok (mkConfig "chromium" false 250 "https://example.com" 5000
          "testuser" "testpass").
Proof. by vm_compute. Qed.

Example py_int_samples :
  py_int 4300 " 12 " = Ok 12%Z ∧ py_int 4300 "+5" = Ok 5%Z ∧
  py_int 4300 "-0" = Ok 0%Z ∧ py_int 4300 "1_000" = Ok 1000%Z ∧
  py_int 4300 "007" = Ok 7%Z ∧
  is_ok (py_int 4300 "") = false ∧ is_ok (py_int 4300 "_1") = false ∧
  is_ok (py_int 4300 "1_") = false ∧ is_ok (py_int 4300 "1__0") = false ∧
  is_ok (py_int 4300 "1.5") = false ∧ is_ok (py_int 4300 "+ 5") = false ∧
  is_ok (py_int 4300 "1 2") = false ∧ is_ok (py_int 4300 "--5") = false ∧
  is_ok (py_int 4300 "0x10") = false ∧ is_ok (py_int 4300 "-") = false ∧
  py_int 700 (string_of_list_ascii (replicate 701 "1"%char)) =
    Raise (ValueError (ExceedsDigitLimit 701)) ∧
  py_int 700 (string_of_list_ascii (replicate 701 "1"%char ++ ["x"%char])) =
    Raise (ValueError (ExceedsDigitLimit 701)) ∧
  is_ok (py_int 0 (string_of_list_ascii (replicate 701 "1"%char))) = true.
Proof. vm_compute. repeat split. Qed.

(** ** The base URL of an environment *)

Lemma BASE_URLS_dev : settings.BASE_URLS !! "dev" = Some "https://dev.example.com".
Proof. reflexivity. Qed.

Lemma BASE_URLS_keys (e : string) :
  e ∉ ["dev"; "staging"; "prod"] → settings.BASE_URLS !! e = None.
Proof.
  intros Hn. unfold settings.BASE_URLS.
  apply not_elem_of_cons in Hn as [H1 Hn].
  apply not_elem_of_cons in Hn as [H2 Hn].
  apply not_elem_of_cons in Hn as [H3 _].
  by rewrite !lookup_insert_ne, lookup_empty.
Qed.

Lemma BASE_URLS_lookup_dev (e : string) :
  e ∉ ["staging"; "prod"] →
  default "https://dev.example.com" (settings.BASE_URLS !! e) =
    "https://dev.example.com".
Proof.
  intros Hn. destruct (decide (e = "dev")) as [->|Hd]; [reflexivity|].
  rewrite BASE_URLS_keys; [reflexivity|].
  apply not_elem_of_cons. by split.
Qed.

(** C10, the counterexample: the empty string is no environment name, yet
    with [TEST_ENV=prod] it resolves to the production URL, because an empty
    argument gives way to [TEST_ENV]. *)
Lemma get_base_url_empty_name :
  ("" ∉ ["dev"; "staging"; "prod"]) ∧
  settings.get_base_url (process_with [("TEST_ENV", "prod")]) (VStr "") =
    Ok "https://example.com" ∧
  "https://example.com" ≠ "https://dev.example.com".
Proof. split; [|split]; [not_in|reflexivity|discriminate]. Qed.

(** C10, amended: [get_base_url] raises nothing, whatever the argument
    and the environment.  The name it looks up is the argument when that is
    a non-empty string, and otherwise (argument missing, [None] or empty)
    the value of [TEST_ENV], or dev when that is unset.  It returns the
    staging URL for the name staging, the production URL for the name prod
    and the dev URL for every other name.  So it returns the dev URL for
    every non-empty argument outside dev, staging and prod, and for a
    missing, [None] or empty argument whenever [TEST_ENV] is unset or names
    neither staging nor prod. *)
Theorem get_base_url_fallback (p : process) (environment : value) :
  let env_name :=
    match environment with
    | VStr e => if bool_decide (e = "") then settings.ENVIRONMENT p else e
    | VNone => settings.ENVIRONMENT p
    end in
  settings.ENVIRONMENT p = default "dev" (environ p !! "TEST_ENV") ∧
  settings.get_base_url p environment =
    Ok (if bool_decide (env_name = "staging") then "https://staging.example.com"
        else if bool_decide (env_name = "prod") then "https://example.com"
        else "https://dev.example.com") ∧
  is_ok (settings.get_base_url p environment) = true ∧
  ((∃ e, environment = VStr e ∧ e ≠ "" ∧ e ∉ ["dev"; "staging"; "prod"]) ∨
   ((environment = VNone ∨ environment = VStr "") ∧
    (environ p !! "TEST_ENV" = None ∨
     settings.ENVIRONMENT p ∉ ["staging"; "prod"])) →
   settings.get_base_url p environment = Ok "https://dev.example.com").
Proof.
  intros env_name.
  assert (settings.item settings.BASE_URLS "dev" = Ok "https://dev.example.com")
    as Hdev by reflexivity.
  assert (∀ e, default "https://dev.example.com" (settings.BASE_URLS !! e) =
               if bool_decide (e = "staging") then "https://staging.example.com"
               else if bool_decide (e = "prod") then "https://example.com"
               else "https://dev.example.com") as Hlook.
  { intros e. repeat case_bool_decide; subst; try reflexivity.
    apply BASE_URLS_lookup_dev.
    apply not_elem_of_cons. split; [done|].
    apply not_elem_of_cons. split; [done|]. apply not_elem_of_nil. }
  assert (settings.get_base_url p environment =
    Ok (if bool_decide (env_name = "staging") then "https://staging.example.com"
        else if bool_decide (env_name = "prod") then "https://example.com"
        else "https://dev.example.com")) as E.
  { unfold settings.get_base_url, py_or. rewrite Hdev. unfold env_name.
    destruct environment as [|e]; simpl; [by rewrite Hlook|].
    case_bool_decide; simpl; by rewrite Hlook. }
  split; [reflexivity|]. split; [exact E|]. split; [by rewrite E|].
  intros [(e & -> & Hne & Hn) | [Harg Henv]];
    unfold settings.get_base_url, py_or; rewrite Hdev.
  - simpl. rewrite bool_decide_eq_false_2 by done. simpl.
    by rewrite BASE_URLS_keys.
  - assert (settings.ENVIRONMENT p ∉ ["staging"; "prod"]) as Hn.
    { destruct Henv as [Hu|Hn]; [|done].
      unfold settings.ENVIRONMENT, getenv. rewrite Hu. simpl. not_in. }
    destruct Harg as [-> | ->]; simpl; f_equal; by apply BASE_URLS_lookup_dev.
Qed.

(** The names of the table, an unknown name, and no argument. *)
Example get_base_url_cases :
  settings.get_base_url (process_with []) (VStr "dev") =
    Ok "https://dev.example.com" ∧
  settings.get_base_url (process_with []) (VStr "staging") =
    Ok "https://staging.example.com" ∧
  settings.get_base_url (process_with []) (VStr "prod") =
    Ok "https://example.com" ∧
  settings.get_base_url (process_with [("TEST_ENV", "prod")]) (VStr "qa") =
    Ok "https://dev.example.com" ∧
  settings.get_base_url (process_with []) VNone =
    Ok "https://dev.example.com" ∧
  settings.get_base_url (process_with [("TEST_ENV", "staging")]) VNone =
    Ok "https://staging.example.com".
Proof. by vm_compute. Qed.

(** ** The browser manager *)

Lemma extend_app (w : world) (es es' : list event) :
  extend (extend w es) es' = extend w (es ++ es').
Proof. unfold extend. by rewrite foldl_app. Qed.

Lemma launched_app (es es' : list event) :
  launched (es ++ es') = launched es ++ launched es'.
Proof. apply omap_app. Qed.

Lemma close_all_run (bm : BrowserManager.t) (w : world) :
  BrowserManager.close_all (bm, w) = (Ok tt, (bm, extend w (held bm))).
Proof. by destruct bm as [[d|] [b|] cfg]. Qed.

(** Once a browser is cached, [get_browser] hands it out and does nothing
    else. *)
Lemma get_browser_cached (bm : BrowserManager.t) (w : world) (b : nat) :
  BrowserManager.browser bm = Some b →
  BrowserManager.get_browser (bm, w) = (Ok b, (bm, w)).
Proof. intros H. unfold BrowserManager.get_browser. run. by rewrite H. Qed.

Lemma get_browser_times_cached (n : nat) (bm : BrowserManager.t) (w : world)
    (b : nat) :
  BrowserManager.browser bm = Some b →
  get_browser_times n (bm, w) = (replicate n (Ok b), (bm, w)).
Proof.
  intros H. induction n as [|n IH]; [done|].
  simpl. by rewrite (get_browser_cached _ _ _ H), IH.
Qed.

(** Without a cached browser, [get_browser] starts a driver and attempts one
    launch: either it returns the one browser it launched, a new object, and
    caches it, or it raises and caches none. *)
Lemma get_browser_fresh (bm : BrowserManager.t) (w : world) :
  BrowserManager.browser bm = None →
  ∃ es,
    calls (snd (snd (BrowserManager.get_browser (bm, w)))) = calls w ++ es ∧
    next_id w ≤ next_id (snd (snd (BrowserManager.get_browser (bm, w)))) ∧
    match fst (BrowserManager.get_browser (bm, w)) with
    | Ok b =>
        launched es = [b] ∧
        BrowserManager.browser (fst (snd (BrowserManager.get_browser (bm, w))))
          = Some b ∧
        next_id w ≤ b ∧
        b < next_id (snd (snd (BrowserManager.get_browser (bm, w))))
    | Raise _ =>
        launched es = [] ∧
        BrowserManager.browser (fst (snd (BrowserManager.get_browser (bm, w))))
          = None
    end.
Proof.
  intros H. unfold BrowserManager.get_browser. run. rewrite H.
  unfold start, launch, allocate, attempt. simpl.
  destruct (running (calls w)); simpl.
  - case_bool_decide; simpl.
    + destruct (launch_ok w (attempts w)); simpl.
      * eexists [_; _]. rewrite <- app_assoc. repeat split; simpl; lia.
      * eexists [_; _]. rewrite <- app_assoc. repeat split; simpl; lia.
    + eexists [_]. repeat split; simpl; lia.
  - exists []. rewrite app_nil_r. by repeat split.
Qed.

(** What [n] calls on a manager without a cached browser amount to. *)
Lemma get_browser_times_fresh (n : nat) (bm : BrowserManager.t) (w : world) :
  BrowserManager.browser bm = None →
  ∃ es,
    calls (snd (snd (get_browser_times n (bm, w)))) = calls w ++ es ∧
    next_id w ≤ next_id (snd (snd (get_browser_times n (bm, w)))) ∧
    (∀ i j b,
       fst (get_browser_times n (bm, w)) !! i = Some (Ok b) → i ≤ j → j < n →
       fst (get_browser_times n (bm, w)) !! j = Some (Ok b)) ∧
    ((launched es = [] ∧
      ∀ b, Ok b ∉ fst (get_browser_times n (bm, w))) ∨
     (∃ b,
        launched es = [b] ∧
        BrowserManager.browser (fst (snd (get_browser_times n (bm, w))))
          = Some b ∧
        next_id w ≤ b ∧
        b < next_id (snd (snd (get_browser_times n (bm, w)))) ∧
        ∀ b', Ok b' ∈ fst (get_browser_times n (bm, w)) → b' = b)).
Proof.
  revert bm w. induction n as [|n IH]; intros bm w H.
  - exists []. simpl. rewrite app_nil_r. repeat split; [lia| |].
    + intros i j b Hi. by rewrite lookup_nil in Hi.
    + left. split; [done|]. intros b. apply not_elem_of_nil.
  - destruct (get_browser_fresh bm w H) as (es1 & Hc1 & Hn1 & Hr).
    simpl.
    destruct (BrowserManager.get_browser (bm, w)) as [r [bm1 w1]]; simpl in *.
    destruct r as [b|e].
    + destruct Hr as (Hl & Hb & Hlo & Hhi).
      rewrite (get_browser_times_cached n bm1 w1 b Hb). simpl.
      exists es1. repeat split; [done|lia| |].
      * intros i j b0 Hi Hij Hj.
        assert (Ok b0 = Ok b) as ->.
        { destruct i as [|i]; simpl in Hi; [congruence|].
          apply lookup_replicate in Hi as [Hi _]. congruence. }
        destruct j as [|j]; [done|]. simpl.
        apply lookup_replicate. split; [done|lia].
      * right. exists b. repeat split; [done|done|lia|lia|].
        intros b' Hin. apply elem_of_cons in Hin as [Hin|Hin]; [congruence|].
        apply elem_of_replicate in Hin as [Hin _]. congruence.
    + destruct Hr as (Hl & Hb).
      destruct (IH bm1 w1 Hb) as (es2 & Hc2 & Hn2 & Hsame & Hcase).
      destruct (get_browser_times n (bm1, w1)) as [rs [bm2 w2]]; simpl in *.
      exists (es1 ++ es2). rewrite Hc2, Hc1, <- app_assoc.
      repeat split; [lia| |].
      * intros i j b Hi Hij Hj.
        destruct i as [|i]; [done|]. destruct j as [|j]; [lia|]. simpl in *.
        apply (Hsame i j b); [done|lia|lia].
      * rewrite launched_app, Hl. simpl.
        destruct Hcase as [[Hl2 Hno]|(b & Hl2 & Hb2 & Hlo & Hhi & Hall)].
        -- left. split; [done|]. intros b. apply not_elem_of_cons. split; [done|apply Hno].
        -- right. exists b. repeat split; [done|done|lia|lia|].
           intros b' Hin. apply elem_of_cons in Hin as [Hin|Hin]; [done|by apply Hall].
Qed.

Lemma running_app (es es' : list event) :
  running (es ++ es') = foldl track (running es) es'.
Proof. apply foldl_app. Qed.

(** A driver that was started alone and then stopped leaves none running. *)
Lemma running_stopped (es mid : list event) (d : nat) :
  running es = [] → (∀ e, e ∈ mid → track [d] e = [d]) →
  running (es ++ Start d :: mid ++ [Stop d]) = [].
Proof.
  intros Hr Hmid. rewrite running_app, Hr. simpl. rewrite foldl_app.
  assert (foldl track [d] mid = [d]) as ->.
  { induction mid as [|e mid IH]; [done|]. simpl.
    rewrite Hmid by apply list_elem_of_here.
    apply IH. intros e' He'. apply Hmid. by apply list_elem_of_further. }
  simpl. rewrite filter_cons_False by (intros H; by apply H).
  done.
Qed.

(** With no driver running, a supported browser name and a launch that
    succeeds, [get_browser] on a manager without a browser starts a driver,
    launches the browser, caches both and returns the browser. *)
Lemma get_browser_launches (cfg : Config) (pw : option nat) (w : world) :
  browser_name cfg ∈ BrowserManager.browser_types →
  running (calls w) = [] →
  launch_ok w (attempts w) = true →
  BrowserManager.get_browser (BrowserManager.mk pw None cfg, w) =
    (Ok (S (next_id w)),
     (BrowserManager.mk (Some (next_id w)) (Some (S (next_id w))) cfg,
      World (calls w ++
               [ Start (next_id w);
                 Launch (next_id w) (browser_name cfg) (headless cfg)
                   (slow_mo cfg) (Some (S (next_id w))) ])
        (S (S (next_id w))) (S (attempts w)) (launch_ok w) (text_of w)
        (visible w))).
Proof.
  intros Hk Hr Hl. unfold BrowserManager.get_browser. run. simpl.
  unfold start, launch, allocate, attempt. rewrite Hr. simpl.
  rewrite (bool_decide_eq_true_2 _ Hk). simpl. rewrite Hl. simpl.
  unfold record. simpl. by rewrite <- app_assoc.
Qed.

(** C4: on a new manager, any number of calls of [get_browser] launches
    at most one browser process; from the first call that returns a browser
    on, every call returns that same browser; and after [close_all], a new
    manager that gets a browser gets a different one.  When no driver is
    running, the browser name is supported and the launch succeeds, every
    call does return: the first call starts one driver and launches one
    browser, all calls return that browser and nothing else is called; a
    new manager after [close_all] whose launch succeeds returns a new
    browser. *)
Theorem get_browser_single_process (cfg cfg' : Config) (w : world) (n : nat) :
  let run := get_browser_times n (BrowserManager.init cfg, w) in
  let handles := fst run in
  let after := snd run in
  length (launched (added w (snd after))) ≤ 1 ∧
  (∀ i j b,
     handles !! i = Some (Ok b) → i ≤ j → j < n → handles !! j = Some (Ok b)) ∧
  (∀ b, Ok b ∈ handles →
     launched (added w (snd after)) = [b] ∧
     BrowserManager.browser (fst after) = Some b) ∧
  (∀ b b',
     Ok b ∈ handles →
     fst (BrowserManager.get_browser
            (BrowserManager.init cfg',
             snd (snd (BrowserManager.close_all after)))) = Ok b' →
     b' ≠ b) ∧
  (browser_name cfg ∈ BrowserManager.browser_types →
   running (calls w) = [] →
   launch_ok w (attempts w) = true →
   handles = replicate n (Ok (S (next_id w))) ∧
   (0 < n →
    added w (snd after) =
      [ Start (next_id w);
        Launch (next_id w) (browser_name cfg) (headless cfg) (slow_mo cfg)
          (Some (S (next_id w))) ] ∧
    (browser_name cfg' ∈ BrowserManager.browser_types →
     launch_ok w (S (attempts w)) = true →
     fst (BrowserManager.get_browser
            (BrowserManager.init cfg',
             snd (snd (BrowserManager.close_all after)))) =
       Ok (S (S (S (next_id w))))))).
Proof.
  intros run handles after.
  destruct (get_browser_times_fresh n (BrowserManager.init cfg) w eq_refl)
    as (es & Hc & Hn & Hsame & Hcase).
  fold run in Hc, Hn, Hsame, Hcase. fold handles in Hsame, Hcase.
  fold after in Hc, Hn, Hcase.
  rewrite (added_app _ _ _ Hc).
  split; [|split; [exact Hsame|split; [|split]]].
  - destruct Hcase as [[-> _]|(b & -> & _)]; simpl; lia.
  - intros b Hin.
    destruct Hcase as [[_ Hno]|(b0 & Hl & Hb & _ & _ & Hall)]; [by destruct (Hno b)|].
    by rewrite (Hall b Hin).
  - intros b b' Hin Hnew.
    destruct Hcase as [[_ Hno]|(b0 & Hl & Hb & _ & Hhi & Hall)]; [by destruct (Hno b)|].
    rewrite (Hall b Hin).
    destruct after as [bm1 w1]. rewrite close_all_run in Hnew. simpl in Hnew, Hhi.
    destruct (get_browser_fresh (BrowserManager.init cfg')
                (extend w1 (held bm1)) eq_refl) as (es' & _ & _ & Hr).
    rewrite Hnew in Hr. destruct Hr as (_ & _ & Hlo & _).
    rewrite next_id_extend in Hlo. lia.
  - intros Hk Hr Hl. clear Hn Hsame Hcase.
    destruct n as [|n]; [split; [done|lia]|].
    assert (run =
      (replicate (S n) (Ok (S (next_id w))),
       (BrowserManager.mk (Some (next_id w)) (Some (S (next_id w))) cfg,
        World (calls w ++
                 [ Start (next_id w);
                   Launch (next_id w) (browser_name cfg) (headless cfg)
                     (slow_mo cfg) (Some (S (next_id w))) ])
          (S (S (next_id w))) (S (attempts w)) (launch_ok w) (text_of w)
          (visible w)))) as E.
    { unfold run. simpl get_browser_times.
      unfold BrowserManager.init. rewrite (get_browser_launches cfg None w Hk Hr Hl).
      by rewrite get_browser_times_cached with (b := S (next_id w)). }
    unfold handles, after in *. clearbody run. subst run.
    simpl fst. simpl snd. simpl in Hc. apply app_inv_head in Hc. subst es.
    split; [done|]. intros _. split; [done|].
    intros Hk' Hl'. unfold record. simpl.
    unfold BrowserManager.init.
    rewrite get_browser_launches; [done|done| |done].
    simpl calls. rewrite <- !app_assoc. simpl.
    apply (running_stopped (calls w)
             [ Launch (next_id w) (browser_name cfg) (headless cfg)
                 (slow_mo cfg) (Some (S (next_id w)));
               BrowserClose (S (next_id w)) ] (next_id w) Hr).
    intros e He. apply elem_of_cons in He as [->|He]; [done|].
    apply list_elem_of_singleton in He as ->. done.
Qed.

(** Three calls on a new manager in a quiet world, and a new manager after
    [close_all]. *)
Lemma get_browser_single_process_witness :
  fst (get_browser_times 3 (BrowserManager.init default_config, quiet_world)) =
    [Ok 1; Ok 1; Ok 1] ∧
  fst (BrowserManager.get_browser
         (BrowserManager.init default_config,
          snd (snd (BrowserManager.close_all
                      (snd (get_browser_times 3
                              (BrowserManager.init default_config,
                               quiet_world))))))) = Ok 3.
Proof.
  destruct (proj2 (proj2 (proj2 (proj2
              (get_browser_single_process default_config default_config
                 quiet_world 3))))
              (list_elem_of_here _ _) eq_refl eq_refl) as [H1 H2].
  split; [exact H1|].
  exact (proj2 (H2 ltac:(lia)) (list_elem_of_here _ _) eq_refl).
Defined.

(** Three calls on a new manager in a quiet world: one driver, one launch,
    one handle.  After a launch that failed the driver is still running, so
    the following calls raise when they start another. *)
Example get_browser_three_times :
  fst (get_browser_times 3 (BrowserManager.init default_config, quiet_world)) =
    [Ok 1; Ok 1; Ok 1] ∧
  calls (snd (snd (get_browser_times 3
                     (BrowserManager.init default_config, quiet_world)))) =
    [Start 0; Launch 0 "chromium" false 0 (Some 1)] ∧
  fst (get_browser_times 3
         (BrowserManager.init default_config,
          World [] 0 0 (λ k, bool_decide (k = 1)) (λ _ _, VNone) (λ _ _, false))) =
    [Raise LaunchError; Raise SyncApiError; Raise SyncApiError].
Proof. by vm_compute. Qed.

(** C2, the counterexample: after a browser was acquired, a second
    [close_all] closes the same browser and stops the same driver again. *)
Lemma close_all_twice_repeats :
  let acquired :=
    snd (BrowserManager.get_browser
           (BrowserManager.init default_config, quiet_world)) in
  let closed := snd (BrowserManager.close_all acquired) in
  let closed_again := snd (BrowserManager.close_all closed) in
  added (snd acquired) (snd closed) = [BrowserClose 1; Stop 0] ∧
  added (snd closed) (snd closed_again) = [BrowserClose 1; Stop 0] ∧
  releases (added (snd acquired) (snd closed_again)) =
    [BrowserClose 1; Stop 0; BrowserClose 1; Stop 0].
Proof. by vm_compute. Qed.

(** C2, amended: [close_all] itself raises nothing and leaves the manager
    as it was; each call closes the cached browser, if there is one, and
    then stops the cached driver, if there is one, so two calls in succession
    make these calls twice.  On a manager that holds neither a browser nor a
    driver, as a new one, one call, and two calls, do nothing at all.  On a
    manager that holds a driver and no browser every call stops that driver;
    this is the manager a failed launch leaves behind, and one that an
    unsupported browser name leaves behind, although no browser was ever
    acquired. *)
Theorem close_all_releases_held (bm : BrowserManager.t) (cfg : Config)
    (d : nat) (w : world) :
  BrowserManager.close_all (bm, w) =
    (Ok tt,
     (bm,
      extend w
        (match BrowserManager.browser bm with
         | Some b => [BrowserClose b]
         | None => []
         end ++
         match BrowserManager.playwright bm with
         | Some d => [Stop d]
         | None => []
         end))) ∧
  (BrowserManager.close_all ;;; BrowserManager.close_all) (bm, w) =
    (Ok tt, (bm, extend w (held bm ++ held bm))) ∧
  BrowserManager.init cfg = BrowserManager.mk None None cfg ∧
  BrowserManager.close_all (BrowserManager.mk None None cfg, w) =
    (Ok tt, (BrowserManager.mk None None cfg, w)) ∧
  (BrowserManager.close_all ;;; BrowserManager.close_all)
    (BrowserManager.mk None None cfg, w) =
    (Ok tt, (BrowserManager.mk None None cfg, w)) ∧
  BrowserManager.close_all (BrowserManager.mk (Some d) None cfg, w) =
    (Ok tt, (BrowserManager.mk (Some d) None cfg, extend w [Stop d])) ∧
  (BrowserManager.close_all ;;; BrowserManager.close_all)
    (BrowserManager.mk (Some d) None cfg, w) =
    (Ok tt, (BrowserManager.mk (Some d) None cfg, extend w [Stop d; Stop d])) ∧
  (running (calls w) = [] →
   (browser_name cfg ∈ BrowserManager.browser_types →
    launch_ok w (attempts w) = false →
    ∃ w1,
      BrowserManager.get_browser (BrowserManager.init cfg, w) =
        (Raise LaunchError,
         (BrowserManager.mk (Some (next_id w)) None cfg, w1)) ∧
      launched (added w w1) = [] ∧
      BrowserManager.close_all
        (BrowserManager.mk (Some (next_id w)) None cfg, w1) =
        (Ok tt,
         (BrowserManager.mk (Some (next_id w)) None cfg,
          extend w1 [Stop (next_id w)]))) ∧
   (browser_name cfg ∉ BrowserManager.browser_types →
    ∃ w1,
      BrowserManager.get_browser (BrowserManager.init cfg, w) =
        (Raise (AttributeError (browser_name cfg)),
         (BrowserManager.mk (Some (next_id w)) None cfg, w1)) ∧
      launched (added w w1) = [] ∧
      BrowserManager.close_all
        (BrowserManager.mk (Some (next_id w)) None cfg, w1) =
        (Ok tt,
         (BrowserManager.mk (Some (next_id w)) None cfg,
          extend w1 [Stop (next_id w)])))).
Proof.
  split; [apply close_all_run|]. split; [|split; [done|split; [|split; [|split; [|split]]]]].
  - unfold bind. by rewrite !close_all_run, extend_app.
  - by rewrite close_all_run.
  - unfold bind. by rewrite !close_all_run.
  - by rewrite close_all_run.
  - unfold bind. by rewrite !close_all_run.
  - intros Hr. split.
    + intros Hk Hl.
      exists (World (calls w ++
                       [ Start (next_id w);
                         Launch (next_id w) (browser_name cfg) (headless cfg)
                           (slow_mo cfg) None ])
                (S (next_id w)) (S (attempts w)) (launch_ok w) (text_of w)
                (visible w)).
      split; [|split].
      * unfold BrowserManager.get_browser, BrowserManager.init. run. simpl.
        unfold start, launch, allocate, attempt. rewrite Hr. simpl.
        rewrite (bool_decide_eq_true_2 _ Hk). simpl. rewrite Hl. simpl.
        unfold record. simpl. by rewrite <- app_assoc.
      * unfold added. simpl. by rewrite drop_app_length.
      * by rewrite close_all_run.
    + intros Hk.
      exists (World (calls w ++ [Start (next_id w)])
                (S (next_id w)) (attempts w) (launch_ok w) (text_of w)
                (visible w)).
      split; [|split].
      * unfold BrowserManager.get_browser, BrowserManager.init. run. simpl.
        unfold start, allocate. rewrite Hr. simpl.
        by rewrite (bool_decide_eq_false_2 _ Hk).
      * unfold added. simpl. by rewrite drop_app_length.
      * by rewrite close_all_run.
Qed.

(** A launch that fails in a world where nothing has happened yet: the
    manager is left with driver 0 and no browser, and [close_all] stops that
    driver. *)
Lemma close_all_releases_held_witness :
  let failing := World [] 0 0 (λ _, false) (λ _ _, VNone) (λ _ _, false) in
  ∃ w1,
    BrowserManager.get_browser (BrowserManager.init default_config, failing) =
      (Raise LaunchError, (BrowserManager.mk (Some 0) None default_config, w1)) ∧
    launched (added failing w1) = [] ∧
    BrowserManager.close_all
      (BrowserManager.mk (Some 0) None default_config, w1) =
      (Ok tt,
       (BrowserManager.mk (Some 0) None default_config, extend w1 [Stop 0])).
Proof.
  intros failing.
  exact (proj1 (proj2 (proj2 (proj2 (proj2 (proj2 (proj2 (proj2
           (close_all_releases_held (BrowserManager.init default_config)
              default_config 0 failing))))))) eq_refl)
           (list_elem_of_here _ _) eq_refl).
Defined.

(** ** Setup of a scenario *)

(** C3: the configured timeout is not applied to the page.  With
    [TIMEOUT=5000] the configuration loads and holds 5000, and the page that
    [before_scenario] opens in the first scenario is given 30000; and in
    every context and world, whatever the configuration holds, a default
    timeout that [before_scenario] sets is the literal 30000. *)
Theorem before_scenario_ignores_TIMEOUT :
  (∃ cfg,
     Config_load (process_with [("TIMEOUT", "5000")]) = Ok cfg ∧
     timeout cfg = 5000%Z ∧
     (before_all cfg ;;; before_scenario (Scenario "Login" "untested"))
       (empty_context, quiet_world) =
       (Ok tt,
        (Context (Some cfg)
           (Some (BrowserManager.mk (Some 0) (Some 1) cfg))
           (Some 1) (Some 2) (Some "Login") None,
         World [ Start 0; Launch 0 "chromium" false 0 (Some 1); NewPage 1 2;
                 SetDefaultTimeout 2 30000 ]
           3 1 (launch_ok quiet_world) (text_of quiet_world)
           (visible quiet_world)))) ∧
  (∀ sc c w p t,
     SetDefaultTimeout p t ∈ added w (snd (snd (before_scenario sc (c, w)))) →
     t = 30000%Z).
Proof.
  split.
  { eexists. split; [reflexivity|]. split; reflexivity. }
  intros sc c w p t. unfold before_scenario, with_manager. run.
  destruct (browser_manager c) as [[pw [b|] cfg]|]; simpl.
  - unfold BrowserManager.get_browser, new_page, allocate. run. simpl.
    unfold added. simpl. rewrite <- app_assoc, drop_app_length.
    intros H. apply elem_of_cons in H as [H'|H']; [done|].
    apply list_elem_of_singleton in H'. by injection H' as _ <-.
  - unfold BrowserManager.get_browser, new_page, start, launch, allocate,
      attempt. run. simpl.
    destruct (running (calls w)); simpl.
    + case_bool_decide; simpl.
      * destruct (launch_ok w (attempts w)); simpl; unfold added; simpl;
          rewrite <- ?app_assoc, drop_app_length; simpl; intros Hin;
          repeat (apply elem_of_cons in Hin as [Hin'|Hin'];
                  [try done; by injection Hin' as _ <-
                  |rename Hin' into Hin]);
          by apply elem_of_nil in Hin.
      * unfold added; simpl. rewrite drop_app_length. intros Hin.
        apply list_elem_of_singleton in Hin. done.
    + unfold added. rewrite drop_all. intros H. by apply elem_of_nil in H.
  - unfold added. rewrite drop_all. intros H. by apply elem_of_nil in H.
Qed.

(** ** End-to-end scenario 1 *)

(** The three phrases select these step functions, and no others. *)
Lemma scenario_1_dispatch :
  map (λ '(kw, phrase), matches kw phrase) scenario_1 =
    [ [("step_navigate_to_page", ["login"])];
      [("step_enter_credentials", ["alice"; "secret"])];
      [("step_click_login", [])] ].
Proof. by vm_compute. Qed.

(** C1, the counterexample: in the context that [before_all] and
    [before_scenario] set up, the quoted navigation phrase navigates and
    waits, and the credentials phrase then raises, because no login page
    object was put into the context: no [fill] and no [click] is made. *)
Lemma scenario_1_stops_at_credentials :
  ∃ steps,
    run_steps scenario_1 = Some steps ∧
    let ready :=
      snd ((before_all default_config ;;;
            before_scenario (Scenario "Login" "untested"))
             (empty_context, quiet_world)) in
    page (fst ready) = Some 2 ∧
    login_page (fst ready) = None ∧
    fst (steps ready) = Raise (AttributeError "login_page") ∧
    added (snd ready) (snd (snd (steps ready))) =
      [Goto 2 "https://example.com/login"; WaitForLoadState 2 "networkidle"].
Proof. eexists. split; [reflexivity|]. by vm_compute. Qed.

(** C1, amended: the quoted navigation phrase resolves the base URL
    followed by [/login], navigates there and waits for network idle; with a
    login page object in the context, the credentials phrase then fills the
    user name, fills the password and clicks the login button, and the
    click phrase clicks the login button once more: four interactions. *)
Theorem scenario_1_interactions (c : context) (w : world) (cfg : Config)
    (p : nat) (lp : BasePage.t) :
  config c = Some cfg → page c = Some p → login_page c = Some lp →
  ∃ steps,
    run_steps scenario_1 = Some steps ∧
    steps (c, w) =
      (Ok tt,
       (c, extend w
             [ Goto p (base_url cfg +:+ "/login");
               WaitForLoadState p "networkidle";
               Fill (BasePage.page lp) "#username" "alice";
               Fill (BasePage.page lp) "#password" "secret";
               Click (BasePage.page lp) "#login-button";
               Click (BasePage.page lp) "#login-button" ])).
Proof.
  intros Hc Hp Hl. eexists. split; [reflexivity|].
  destruct c as [c1 c2 c3 c4 c5 c6]. simpl in Hc, Hp, Hl. subst.
  reflexivity.
Qed.

(** The scenario in a context whose login page object is on page 2. *)
Lemma scenario_1_interactions_witness :
  ∃ steps,
    run_steps scenario_1 = Some steps ∧
    steps (login_context default_config 2, quiet_world) =
      (Ok tt,
       (login_context default_config 2,
        extend quiet_world
          [ Goto 2 "https://example.com/login";
            WaitForLoadState 2 "networkidle";
            Fill 2 "#username" "alice";
            Fill 2 "#password" "secret";
            Click 2 "#login-button";
            Click 2 "#login-button" ])).
Proof.
  exact (scenario_1_interactions (login_context default_config 2) quiet_world
           default_config 2 (BasePage.new 2) eq_refl eq_refl eq_refl).
Defined.

(** After the unquoted navigation phrase of login_steps.py the login page
    object is in the context, and the same two phrases make the four
    interactions. *)
Example scenario_1_unquoted_run :
  ∃ steps,
    run_steps scenario_1_unquoted = Some steps ∧
    let ready :=
      snd ((before_all default_config ;;;
            before_scenario (Scenario "Login" "untested"))
             (empty_context, quiet_world)) in
    fst (steps ready) = Ok tt ∧
    login_page (fst (snd (steps ready))) = Some (BasePage.new 2) ∧
    added (snd ready) (snd (snd (steps ready))) =
      [ Goto 2 "https://example.com/login";
        Fill 2 "#username" "alice";
        Fill 2 "#password" "secret";
        Click 2 "#login-button";
        Click 2 "#login-button" ].
Proof. eexists. split; [reflexivity|]. by vm_compute. Qed.

(** ** Further properties of the sources *)

(** *** Detection of a CI environment *)

(** X1: [is_ci_environment] answers true exactly when one of the four
    indicator variables is set to a non-empty string; what the string says
    plays no role, so [CI=false] counts as CI and [CI=] does not. *)
Theorem is_ci_environment_nonempty (p : process) :
  is_ci_environment p = true ↔
  ∃ indicator s,
    indicator ∈ ci_indicators ∧ environ p !! indicator = Some s ∧ s ≠ "".
Proof.
  unfold is_ci_environment. rewrite existsb_exists. split.
  - intros (i & Hin & Ht). apply list_elem_of_In in Hin.
    unfold getenv_opt in Ht. destruct (environ p !! i) as [s|] eqn:E; [|done].
    exists i, s. split; [done|]. split; [done|]. by intros ->.
  - intros (i & s & Hin & E & Hne). exists i. split; [by apply list_elem_of_In|].
    unfold getenv_opt. rewrite E. simpl. by rewrite bool_decide_eq_false_2.
Qed.

Example is_ci_environment_cases :
  is_ci_environment (process_with [("CI", "false")]) = true ∧
  is_ci_environment (process_with [("CI", "")]) = false ∧
  is_ci_environment (process_with [("JENKINS_URL", "http://ci")]) = true ∧
  is_ci_environment (process_with [("TRAVIS", "true")]) = false.
Proof. by vm_compute. Qed.

(** *** Named timeouts *)

(** X2: [get_timeout] raises for no timeout type; it answers one of the
    five values of the table, and 30000 for every type that is not a key of
    the table. *)
Theorem get_timeout_fallback (timeout_type : string) :
  ∃ ms,
    settings.get_timeout timeout_type = Ok ms ∧
    ms ∈ [5000; 10000; 15000; 30000; 60000]%Z ∧
    (timeout_type ∉ ["default"; "short"; "medium"; "long"; "page_load";
                     "element_wait"] → ms = 30000%Z).
Proof.
  unfold settings.get_timeout.
  assert (settings.item settings.TIMEOUTS "default" = Ok 30000%Z) as ->
    by reflexivity.
  eexists. split; [reflexivity|]. unfold settings.TIMEOUTS.
  destruct (decide (timeout_type = "default")) as [->|H1];
    [split; [set_unfold; tauto|intros H; exfalso; apply H; set_unfold; tauto]|].
  rewrite lookup_insert_ne by done.
  destruct (decide (timeout_type = "short")) as [->|H2];
    [split; [set_unfold; tauto|intros H; exfalso; apply H; set_unfold; tauto]|].
  rewrite lookup_insert_ne by done.
  destruct (decide (timeout_type = "medium")) as [->|H3];
    [split; [set_unfold; tauto|intros H; exfalso; apply H; set_unfold; tauto]|].
  rewrite lookup_insert_ne by done.
  destruct (decide (timeout_type = "long")) as [->|H4];
    [split; [set_unfold; tauto|intros H; exfalso; apply H; set_unfold; tauto]|].
  rewrite lookup_insert_ne by done.
  destruct (decide (timeout_type = "page_load")) as [->|H5];
    [split; [set_unfold; tauto|intros H; exfalso; apply H; set_unfold; tauto]|].
  rewrite lookup_insert_ne by done.
  destruct (decide (timeout_type = "element_wait")) as [->|H6];
    [split; [set_unfold; tauto|intros H; exfalso; apply H; set_unfold; tauto]|].
  rewrite lookup_insert_ne, lookup_empty by done. simpl.
  split; [set_unfold; tauto|done].
Qed.

(** *** The dashboard page *)

(** X3: [is_dashboard_loaded] answers true exactly when the main content and
    the navigation bar are both visible, and it asks for the navigation bar
    only when the main content is visible. *)
Theorem is_dashboard_loaded_short_circuit (self : BasePage.t) (w : world) :
  is_dashboard_loaded self w =
    (if visible w (BasePage.page self) "#main-content"
     then (Ok (visible w (BasePage.page self) ".navbar"),
           extend w [ IsVisible (BasePage.page self) "#main-content";
                      IsVisible (BasePage.page self) ".navbar" ])
     else (Ok false,
           extend w [IsVisible (BasePage.page self) "#main-content"])) ∧
  fst (is_dashboard_loaded self w) =
    Ok (visible w (BasePage.page self) "#main-content" &&
        visible w (BasePage.page self) ".navbar").
Proof.
  unfold is_dashboard_loaded, BasePage.is_visible. run.
  change DashboardPage.MAIN_CONTENT with "#main-content".
  by destruct (visible w (BasePage.page self) "#main-content").
Qed.

(** *** Steps that look at an element *)

Lemma py_in_empty (s : string) : py_in "" s = true.
Proof. by destruct s. Qed.

(** X4: on one page state, of the two steps "should be visible" and "should
    not be visible" exactly one passes: the first exactly when the page
    answers that the selector is visible.  Each makes the one visibility
    query and leaves the context alone. *)
Theorem element_visibility_steps_complement (selector : string) (c : context)
    (w : world) (p : nat) :
  page c = Some p →
  is_ok (fst (step_verify_element_visible selector (c, w))) =
    visible w p selector ∧
  is_ok (fst (step_verify_element_not_visible selector (c, w))) =
    negb (visible w p selector) ∧
  snd (step_verify_element_visible selector (c, w)) =
    (c, extend w [IsVisible p selector]) ∧
  snd (step_verify_element_not_visible selector (c, w)) =
    (c, extend w [IsVisible p selector]).
Proof.
  intros Hp.
  unfold step_verify_element_visible, step_verify_element_not_visible,
    BasePage.is_visible.
  run. rewrite Hp. simpl.
  by destruct (visible w p selector).
Qed.

Lemma element_visibility_steps_complement_witness :
  is_ok (fst (step_verify_element_visible "#banner"
                (set_page 2 empty_context, quiet_world))) = false ∧
  is_ok (fst (step_verify_element_not_visible "#banner"
                (set_page 2 empty_context, quiet_world))) = true.
Proof.
  pose proof (element_visibility_steps_complement "#banner"
                (set_page 2 empty_context) quiet_world 2 eq_refl)
    as (H1 & H2 & _).
  exact (conj H1 H2).
Defined.

(** X5: "the element should contain text" passes exactly when the expected
    text occurs in the element's text content, an absent text counting as
    empty; so the empty expected text passes for every selector, whether the
    element has text or not.  When it fails, the message contains the
    expected and the actual text. *)
Theorem step_verify_element_text_substring (selector expected_text : string)
    (c : context) (w : world) (p : nat) :
  page c = Some p →
  let actual_text := text_or_empty (text_of w p selector) in
  step_verify_element_text selector expected_text (c, w) =
    ((if py_in expected_text actual_text then Ok tt
      else Raise (AssertionError
                    (element_text_mismatch selector expected_text actual_text))),
     (c, extend w [TextContent p selector])) ∧
  fst (step_verify_element_text selector "" (c, w)) = Ok tt ∧
  py_in expected_text
    (element_text_mismatch selector expected_text actual_text) = true ∧
  py_in actual_text
    (element_text_mismatch selector expected_text actual_text) = true.
Proof.
  intros Hp actual_text.
  assert (∀ e, step_verify_element_text selector e (c, w) =
    ((if py_in e actual_text then Ok tt
      else Raise (AssertionError (element_text_mismatch selector e actual_text))),
     (c, extend w [TextContent p selector]))) as Hrun.
  { intros e. unfold step_verify_element_text, BasePage.text_content. run.
    rewrite Hp. simpl. rewrite py_or_empty. fold actual_text.
    by destruct (py_in e actual_text). }
  split; [apply Hrun|]. split; [by rewrite Hrun, py_in_empty|].
  unfold element_text_mismatch. split.
  - apply py_in_spec.
    exists ("Expected element '" +:+ selector +:+ "' to contain '"),
      ("', but actual text is '" +:+ actual_text +:+ "'").
    by rewrite !append_assoc.
  - apply py_in_spec.
    exists ("Expected element '" +:+ selector +:+ "' to contain '" +:+
            expected_text +:+ "', but actual text is '"), "'".
    by rewrite !append_assoc.
Qed.

Lemma step_verify_element_text_substring_witness :
  fst (step_verify_element_text "#total" "42"
         (set_page 2 empty_context, world_showing "Total: 42 items")) = Ok tt ∧
  fst (step_verify_element_text "#missing" ""
         (set_page 2 empty_context, quiet_world)) = Ok tt.
Proof.
  split.
  - exact (f_equal fst (proj1 (step_verify_element_text_substring "#total" "42"
             (set_page 2 empty_context) (world_showing "Total: 42 items") 2
             eq_refl))).
  - exact (proj1 (proj2 (step_verify_element_text_substring "#missing" "x"
             (set_page 2 empty_context) quiet_world 2 eq_refl))).
Defined.

(** *** Navigation steps *)

(** X6: "I am on the ... page" compares the page name without regard to
    letter case; it goes to the base URL followed by [/login] or
    [/dashboard] for these two names and to the base URL itself for every
    other name, known or not, and then waits for network idle. *)
Theorem step_navigate_to_page_target (page_name : string) (c : context)
    (w : world) (cfg : Config) (p : nat) :
  config c = Some cfg → page c = Some p →
  step_navigate_to_page page_name (c, w) =
    (Ok tt,
     (c, extend w
           [ Goto p
               (if bool_decide (lower page_name = "login")
                then base_url cfg +:+ "/login"
                else if bool_decide (lower page_name = "dashboard")
                then base_url cfg +:+ "/dashboard"
                else base_url cfg);
             WaitForLoadState p "networkidle" ])).
Proof.
  intros Hc Hp. unfold step_navigate_to_page. run. rewrite Hc, Hp.
  unfold BasePage.navigate_to, BasePage.wait_for_load_state_default,
    BasePage.wait_for_load_state.
  run. simpl.
  repeat f_equal.
  case_bool_decide as H1; [by rewrite H1|].
  rewrite lookup_insert_ne by done.
  case_bool_decide as H2; [by rewrite H2|].
  rewrite lookup_insert_ne by done.
  destruct (decide (lower page_name = "home")) as [H3|H3]; [by rewrite H3|].
  by rewrite lookup_insert_ne, lookup_empty.
Qed.

Lemma step_navigate_to_page_target_witness :
  step_navigate_to_page "LogIn" (login_context default_config 2, quiet_world) =
    (Ok tt,
     (login_context default_config 2,
      extend quiet_world
        [Goto 2 "https://example.com/login"; WaitForLoadState 2 "networkidle"]))
  ∧
  step_navigate_to_page "checkout" (login_context default_config 2, quiet_world) =
    (Ok tt,
     (login_context default_config 2,
      extend quiet_world
        [Goto 2 "https://example.com"; WaitForLoadState 2 "networkidle"])).
Proof.
  split.
  - exact (step_navigate_to_page_target "LogIn" (login_context default_config 2)
             quiet_world default_config 2 eq_refl eq_refl).
  - exact (step_navigate_to_page_target "checkout"
             (login_context default_config 2) quiet_world default_config 2
             eq_refl eq_refl).
Defined.

(** X7: "I navigate to ..." uses a URL that starts with [http] as it is,
    and then needs no configuration; any other URL is appended to the base
    URL, and without a configuration the step raises before any call is
    made.  After navigating it waits for network idle. *)
Theorem step_navigate_to_url_target (url : string) (c : context) (w : world)
    (p : nat) :
  page c = Some p →
  step_navigate_to_url url (c, w) =
    if startswith "http" url
    then (Ok tt,
          (c, extend w [Goto p url; WaitForLoadState p "networkidle"]))
    else match config c with
         | Some cfg =>
             (Ok tt,
              (c, extend w [ Goto p (base_url cfg +:+ url);
                             WaitForLoadState p "networkidle" ]))
         | None => (Raise (AttributeError "config"), (c, w))
         end.
Proof.
  intros Hp. unfold step_navigate_to_url. run. rewrite Hp.
  destruct (startswith "http" url); [reflexivity|].
  run. by destruct (config c).
Qed.

Lemma step_navigate_to_url_target_witness :
  step_navigate_to_url "https://other.test/x"
    (set_page 2 empty_context, quiet_world) =
    (Ok tt,
     (set_page 2 empty_context,
      extend quiet_world
        [Goto 2 "https://other.test/x"; WaitForLoadState 2 "networkidle"])) ∧
  step_navigate_to_url "/profile" (login_context default_config 2, quiet_world) =
    (Ok tt,
     (login_context default_config 2,
      extend quiet_world
        [ Goto 2 "https://example.com/profile";
          WaitForLoadState 2 "networkidle" ])).
Proof.
  split.
  - exact (step_navigate_to_url_target "https://other.test/x"
             (set_page 2 empty_context) quiet_world 2 eq_refl).
  - exact (step_navigate_to_url_target "/profile"
             (login_context default_config 2) quiet_world 2 eq_refl).
Defined.

(** X8: "I should be on the ... page" passes exactly when the pattern of
    the page occurs in the current URL.  For the name home, in any letter
    case, the pattern is empty, so the step passes whatever the URL is; for
    a name outside home, login, dashboard, profile and settings the pattern
    is a slash followed by the name as it was written. *)
Theorem step_verify_current_page_pattern (url_of : nat → string)
    (expected_page : string) (c : context) (w : world) (p : nat) :
  page c = Some p →
  (lower expected_page = "home" →
   step_verify_current_page url_of expected_page (c, w) = (Ok tt, (c, w))) ∧
  (lower expected_page ∉ ["home"; "login"; "dashboard"; "profile"; "settings"] →
   fst (step_verify_current_page url_of expected_page (c, w)) = Ok tt ↔
   py_in ("/" +:+ expected_page) (url_of p) = true) ∧
  (∀ name, name ∈ ["login"; "dashboard"; "profile"; "settings"] →
   lower expected_page = name →
   fst (step_verify_current_page url_of expected_page (c, w)) = Ok tt ↔
   py_in ("/" +:+ name) (url_of p) = true).
Proof.
  intros Hp.
  assert (∀ pattern,
    (let (o, s') :=
       (if py_in pattern (url_of p) then @ret (context * world) unit tt
        else raise (AssertionError
               ("Expected to be on '" +:+ expected_page +:+
                "' page (URL containing '" +:+ pattern +:+
                "'), but current URL is '" +:+ url_of p +:+ "'"))) (c, w) in
     o) = Ok tt ↔ py_in pattern (url_of p) = true) as Hiff.
  { intros pattern. destruct (py_in pattern (url_of p)); simpl; split; done. }
  unfold step_verify_current_page. run. rewrite Hp.
  split; [|split].
  - intros ->. by rewrite lookup_insert_eq, py_in_empty.
  - intros Hn.
    apply not_elem_of_cons in Hn as [H1 Hn].
    apply not_elem_of_cons in Hn as [H2 Hn].
    apply not_elem_of_cons in Hn as [H3 Hn].
    apply not_elem_of_cons in Hn as [H4 Hn].
    apply not_elem_of_cons in Hn as [H5 _].
    rewrite !lookup_insert_ne, lookup_empty by done. simpl. apply Hiff.
  - intros name Hin ->.
    assert ((<["home":=""]> (<["login":="/login"]> (<["dashboard":="/dashboard"]>
              (<["profile":="/profile"]> (<["settings":="/settings"]> ∅))))
             : gmap string string) !! name = Some ("/" +:+ name)) as ->.
    { set_unfold. destruct Hin as [->|[->|[->|[->|[]]]]]; reflexivity. }
    simpl. apply Hiff.
Qed.

Lemma step_verify_current_page_pattern_witness :
  step_verify_current_page (λ _, "https://example.com/checkout") "Home"
    (set_page 2 empty_context, quiet_world) =
    (Ok tt, (set_page 2 empty_context, quiet_world)).
Proof.
  exact (proj1 (step_verify_current_page_pattern
                  (λ _, "https://example.com/checkout") "Home"
                  (set_page 2 empty_context) quiet_world 2 eq_refl) eq_refl).
Defined.

Example step_verify_current_page_cases :
  is_ok (fst (step_verify_current_page (λ _, "https://example.com/Reports/1")
                "Reports" (set_page 2 empty_context, quiet_world))) = true ∧
  is_ok (fst (step_verify_current_page (λ _, "https://example.com/reports/1")
                "Reports" (set_page 2 empty_context, quiet_world))) = false ∧
  is_ok (fst (step_verify_current_page (λ _, "https://example.com/login?x=1")
                "LOGIN" (set_page 2 empty_context, quiet_world))) = true.
Proof. by vm_compute. Qed.

(** *** Teardown without a page *)

(** X9: when the context has no page, [after_scenario] does nothing for a
    scenario that did not fail, and for a failed scenario it raises
    [AttributeError] at the screenshot: the test for a page comes only
    after it.  No call is made in either case. *)
Theorem after_scenario_without_page (sc : scenario) (c : context) (w : world) :
  page c = None →
  after_scenario sc (c, w) =
    if bool_decide (status sc = "failed")
    then (Raise (AttributeError "page"), (c, w))
    else (Ok tt, (c, w)).
Proof.
  intros Hp. unfold after_scenario.
  case_bool_decide; run; rewrite Hp; reflexivity.
Qed.

Lemma after_scenario_without_page_witness :
  after_scenario (Scenario "Login" "failed") (empty_context, quiet_world) =
    (Raise (AttributeError "page"), (empty_context, quiet_world)).
Proof.
  exact (after_scenario_without_page (Scenario "Login" "failed") empty_context
           quiet_world eq_refl).
Defined.

(** *** The login steps and the login page object *)

(** X10: with no login page object in the context, the three login steps
    that use it raise [AttributeError] at once: they make no call and change
    nothing. *)
Theorem login_steps_without_login_page (username password error_message : string)
    (c : context) (w : world) :
  login_page c = None →
  step_enter_credentials username password (c, w) =
    (Raise (AttributeError "login_page"), (c, w)) ∧
  step_click_login (c, w) = (Raise (AttributeError "login_page"), (c, w)) ∧
  step_verify_error_message error_message (c, w) =
    (Raise (AttributeError "login_page"), (c, w)).
Proof.
  intros Hl.
  unfold step_enter_credentials, step_click_login, step_verify_error_message.
  run. by rewrite Hl.
Qed.

Lemma login_steps_without_login_page_witness :
  step_click_login (set_page 2 empty_context, quiet_world) =
    (Raise (AttributeError "login_page"), (set_page 2 empty_context, quiet_world)).
Proof.
  exact (proj1 (proj2 (login_steps_without_login_page "" "" ""
                         (set_page 2 empty_context) quiet_world eq_refl))).
Defined.

(** X11: "I am on the login page" navigates to the base URL followed by
    [/login], without waiting, and puts a login page object on the
    scenario's page into the context; the credentials step that follows
    then fills the user name, fills the password and clicks the login
    button on that page. *)
Theorem step_navigate_to_login_binds (username password : string)
    (c : context) (w : world) (cfg : Config) (p : nat) :
  config c = Some cfg → page c = Some p →
  step_navigate_to_login (c, w) =
    (Ok tt,
     (set_login_page (BasePage.new p) c,
      extend w [Goto p (base_url cfg +:+ "/login")])) ∧
  (step_navigate_to_login ;;; step_enter_credentials username password) (c, w) =
    (Ok tt,
     (set_login_page (BasePage.new p) c,
      extend w
        [ Goto p (base_url cfg +:+ "/login");
          Fill p "#username" username;
          Fill p "#password" password;
          Click p "#login-button" ])).
Proof.
  intros Hc Hp. split.
  - unfold step_navigate_to_login. run. by rewrite Hp, Hc.
  - unfold step_navigate_to_login, step_enter_credentials. run.
    by rewrite Hp, Hc.
Qed.

Lemma step_navigate_to_login_binds_witness :
  (step_navigate_to_login ;;; step_enter_credentials "alice" "secret")
    (set_page 2 (set_config default_config empty_context), quiet_world) =
    (Ok tt,
     (set_login_page (BasePage.new 2)
        (set_page 2 (set_config default_config empty_context)),
      extend quiet_world
        [ Goto 2 "https://example.com/login";
          Fill 2 "#username" "alice";
          Fill 2 "#password" "secret";
          Click 2 "#login-button" ])).
Proof.
  exact (proj2 (step_navigate_to_login_binds "alice" "secret"
                  (set_page 2 (set_config default_config empty_context))
                  quiet_world default_config 2 eq_refl eq_refl)).
Defined.

(** *** Tabs *)

Lemma close_each_run (ps : list nat) (w : world) :
  close_each ps w = (Ok tt, extend w (PageClose <$> ps)).
Proof.
  revert w. induction ps as [|p ps IH]; intros w; [done|].
  simpl. unfold bind, call. by rewrite IH.
Qed.

(** X12: [close_extra_tabs] closes every page of the browser context but
    the first, in order, and nothing else; the page it is given is closed
    exactly when it is not the first page of the context. *)
Theorem close_extra_tabs_keeps_first (pages : list nat) (w : world) :
  close_extra_tabs pages w = (Ok tt, extend w (PageClose <$> drop 1 pages)) ∧
  ∀ page,
    NoDup pages → page ∈ pages →
    (PageClose page ∈ PageClose <$> drop 1 pages) ↔ head pages ≠ Some page.
Proof.
  split; [apply close_each_run|].
  intros pg Hnd Hin. destruct pages as [|f r]; [by apply elem_of_nil in Hin|].
  simpl. rewrite drop_0. apply NoDup_cons in Hnd as [Hf _].
  rewrite list_elem_of_fmap. split.
  - intros (q & [= ->] & Hq) [= ->]. done.
  - intros Hne. apply elem_of_cons in Hin as [->|Hin]; [done|]. eauto.
Qed.

Example close_extra_tabs_cases :
  added quiet_world (snd (close_extra_tabs [4; 7; 9] quiet_world)) =
    [PageClose 7; PageClose 9] ∧
  close_extra_tabs [4] quiet_world = (Ok tt, quiet_world) ∧
  close_extra_tabs [] quiet_world = (Ok tt, quiet_world).
Proof. by vm_compute. Qed.

(** *** Class names of an element *)

Lemma list_ascii_of_string_snoc (s : string) (c : ascii) :
  list_ascii_of_string (s +:+ String c "") = list_ascii_of_string s ++ [c].
Proof.
  induction s as [|a s IH]; [done|].
  rewrite append_cons. simpl. by rewrite IH.
Qed.

Lemma append_snoc (s : string) (c : ascii) (t : string) :
  (s +:+ String c "") +:+ t = s +:+ String c t.
Proof. by rewrite append_assoc. Qed.

(** Every word that [split_go] yields is non-empty and has no white space,
    provided the run read so far has none. *)
Lemma split_go_words (s cur t : string) :
  solid cur → t ∈ split_go cur s → t ≠ "" ∧ solid t.
Proof.
  revert cur. induction s as [|c s IH]; intros cur Hcur; simpl.
  - case_bool_decide as Hcur'; [intros Hin; by apply elem_of_nil in Hin|].
    intros ->%list_elem_of_singleton. done.
  - destruct (is_whitespace c) eqn:Ec.
    + case_bool_decide.
      * apply IH. constructor.
      * intros [->|Hin]%elem_of_cons; [done|].
        revert Hin. apply IH. constructor.
    + apply IH. unfold solid. rewrite list_ascii_of_string_snoc.
      apply Forall_app. split; [done|]. by constructor.
Qed.

(** Splitting at a white space character splits the list of words. *)
Lemma split_go_whitespace (s1 s2 cur : string) (c : ascii) :
  is_whitespace c = true →
  split_go cur (s1 +:+ String c s2) = split_go cur s1 ++ split s2.
Proof.
  intros Hc. revert cur. induction s1 as [|a s1 IH]; intros cur.
  - rewrite append_nil. simpl. rewrite Hc. by case_bool_decide.
  - rewrite append_cons. simpl. destruct (is_whitespace a).
    + case_bool_decide; by rewrite IH.
    + by rewrite IH.
Qed.

(** A string without white space is its own single word. *)
Lemma split_go_solid (s cur : string) :
  solid s → cur +:+ s ≠ "" → split_go cur s = [cur +:+ s].
Proof.
  revert cur. induction s as [|c s IH]; intros cur Hs Hne; simpl.
  - assert (cur +:+ "" = cur) as E.
    { clear. induction cur as [|a cur IH]; [done|].
      by rewrite append_cons, IH. }
    rewrite E in *. by rewrite bool_decide_eq_false_2.
  - apply Forall_cons in Hs as [Hc Hs]. simpl in Hc. rewrite Hc.
    rewrite IH; [by rewrite append_snoc|done|].
    rewrite append_snoc. by destruct cur.
Qed.

(** X13: [assert_element_has_class] passes exactly when the expected class
    is one of the words of the class attribute, an absent attribute counting
    as empty.  The words are non-empty and free of white space, splitting at
    a white space character splits the words, and a string without white
    space is one word: so a class passes when it stands between white space
    or the ends, and an expected class that is empty or contains white
    space never passes. *)
Theorem assert_element_has_class_words (class_attr : value)
    (selector expected_class : string) :
  (is_ok (assert_element_has_class class_attr selector expected_class) = true ↔
   expected_class ∈ split (text_or_empty class_attr)) ∧
  (∀ t, t ∈ split (text_or_empty class_attr) → t ≠ "" ∧ solid t) ∧
  (∀ s1 s2 c, is_whitespace c = true →
     split (s1 +:+ String c s2) = split s1 ++ split s2) ∧
  (∀ s, solid s → s ≠ "" → split s = [s]) ∧
  (expected_class = "" ∨ ¬ solid expected_class →
   is_ok (assert_element_has_class class_attr selector expected_class) = false).
Proof.
  assert (is_ok (assert_element_has_class class_attr selector expected_class)
            = true ↔ expected_class ∈ split (text_or_empty class_attr)) as Hiff.
  { unfold assert_element_has_class. rewrite py_or_empty.
    case_bool_decide; simpl; split; done. }
  assert (∀ t, t ∈ split (text_or_empty class_attr) → t ≠ "" ∧ solid t) as Hw.
  { intros t. apply split_go_words. constructor. }
  split; [exact Hiff|]. split; [exact Hw|]. split; [|split].
  - intros s1 s2 c Hc. by apply split_go_whitespace.
  - intros s Hs Hne. unfold split. by rewrite split_go_solid.
  - intros Hbad. apply not_true_is_false. intros E.
    apply Hiff, Hw in E as [Hne Hsolid]. by destruct Hbad.
Qed.

Example assert_element_has_class_cases :
  assert_element_has_class (VStr "btn btn-primary  active") "#go" "btn-primary"
    = Ok tt ∧
  is_ok (assert_element_has_class (VStr "btn-primary") "#go" "btn") = false ∧
  is_ok (assert_element_has_class (VStr "btn primary") "#go" "btn primary")
    = false ∧
  is_ok (assert_element_has_class VNone "#go" "btn") = false ∧
  is_ok (assert_element_has_class (VStr "btn") "#go" "") = false.
Proof. by vm_compute. Qed.

(** *** Timestamps and addresses *)

Lemma append_length (s t : string) :
  String.length (s +:+ t) = String.length s + String.length t.
Proof.
  induction s as [|a s IH]; [done|]. rewrite append_cons. simpl. by rewrite IH.
Qed.

(** Equal strings with tails of equal length have equal heads and tails. *)
Lemma append_inj_tail (a b t u : string) :
  String.length t = String.length u → a +:+ t = b +:+ u → a = b ∧ t = u.
Proof.
  intros Hlen. revert b. induction a as [|x a IH]; intros b E.
  - destruct b as [|y b]; [done|].
    apply (f_equal String.length) in E.
    rewrite append_nil, append_length in E. simpl in E. lia.
  - destruct b as [|y b].
    + apply (f_equal String.length) in E.
      rewrite append_nil, append_length in E. simpl in E. lia.
    + rewrite !append_cons in E. injection E as -> E.
      destruct (IH b E) as [-> ->]. done.
Qed.

Lemma digit_char_inj (d e : nat) :
  d < 10 → e < 10 → digit_char d = digit_char e → d = e.
Proof.
  intros Hd He E. unfold digit_char, chr in E.
  apply (f_equal nat_of_ascii) in E.
  rewrite !nat_ascii_embedding in E by lia. lia.
Qed.

Lemma two_digits_inj (n m : nat) :
  n < 100 → m < 100 → two_digits n = two_digits m → n = m.
Proof.
  intros Hn Hm E.
  pose proof (Nat.div_mod_eq n 10) as En.
  pose proof (Nat.div_mod_eq m 10) as Em.
  assert (n `div` 10 < 10) as Ha by (apply Nat.Div0.div_lt_upper_bound; lia).
  assert (m `div` 10 < 10) as Hb by (apply Nat.Div0.div_lt_upper_bound; lia).
  pose proof (Nat.mod_upper_bound n 10 ltac:(lia)) as Hc.
  pose proof (Nat.mod_upper_bound m 10 ltac:(lia)) as Hd.
  unfold two_digits in E.
  remember (n `div` 10) as a. remember (n `mod` 10) as c.
  remember (m `div` 10) as b. remember (m `mod` 10) as d.
  injection E as E1 E2.
  apply digit_char_inj in E1; [|done|done].
  apply digit_char_inj in E2; [|done|done].
  lia.
Qed.

Lemma two_digits_length (n : nat) : String.length (two_digits n) = 2.
Proof. reflexivity. Qed.

(** The compact timestamp determines the second it was taken in. *)
Lemma strftime_compact_inj (t1 t2 : datetime) :
  in_range t1 → in_range t2 →
  strftime_compact t1 = strftime_compact t2 →
  year t1 = year t2 ∧ month t1 = month t2 ∧ day t1 = day t2 ∧
  hour t1 = hour t2 ∧ minute t1 = minute t2 ∧ second t1 = second t2.
Proof.
  intros (Hm1 & Hd1 & Hh1 & Hmi1 & Hs1) (Hm2 & Hd2 & Hh2 & Hmi2 & Hs2) E.
  unfold strftime_compact in E.
  apply append_inj_tail in E as [Ey E];
    [|by rewrite !append_length, !two_digits_length].
  apply append_inj_tail in E as [Emo E];
    [|by rewrite !append_length, !two_digits_length].
  apply append_inj_tail in E as [Ed E];
    [|by rewrite !append_length, !two_digits_length].
  apply append_inj_tail in E as [_ E];
    [|by rewrite !append_length, !two_digits_length].
  apply append_inj_tail in E as [Eh E];
    [|by rewrite !append_length, !two_digits_length].
  apply append_inj_tail in E as [Emi Es]; [|done].
  apply (inj pretty) in Ey.
  apply two_digits_inj in Emo; [|lia|lia].
  apply two_digits_inj in Ed; [|lia|lia].
  apply two_digits_inj in Eh; [|lia|lia].
  apply two_digits_inj in Emi; [|lia|lia].
  apply two_digits_inj in Es; [|lia|lia].
  done.
Qed.

(** X14: [generate_unique_email] is unique up to the second: two moments
    give the same address exactly when they agree in year, month, day, hour,
    minute and second, whatever their microseconds are. *)
Theorem generate_unique_email_same_second (t1 t2 : datetime) :
  in_range t1 → in_range t2 →
  generate_unique_email t1 = generate_unique_email t2 ↔
  year t1 = year t2 ∧ month t1 = month t2 ∧ day t1 = day t2 ∧
  hour t1 = hour t2 ∧ minute t1 = minute t2 ∧ second t1 = second t2.
Proof.
  intros H1 H2. unfold generate_unique_email, generate_timestamp. split.
  - intros E. apply (inj (String.app "test_user_")) in E.
    apply append_inj_tail in E as [E _]; [|done].
    by apply strftime_compact_inj.
  - intros (Ey & Emo & Ed & Eh & Emi & Es). unfold strftime_compact.
    by rewrite Ey, Emo, Ed, Eh, Emi, Es.
Qed.

Lemma generate_unique_email_same_second_witness :
  generate_unique_email (Datetime 2024 1 2 3 4 5 100) =
    generate_unique_email (Datetime 2024 1 2 3 4 5 999).
Proof.
  apply generate_unique_email_same_second; unfold in_range; simpl;
    repeat split; lia.
Defined.

Example generate_unique_email_cases :
  generate_unique_email (Datetime 2024 1 2 3 4 5 100) =
    "test_user_20240102_030405@example.com" ∧
  generate_timestamp (Datetime 2031 12 31 23 59 59 0) = "20311231_235959".
Proof. by vm_compute. Qed.

(** *** The browser manager when the launch does not succeed *)

(** While a driver is running, [get_browser] on a manager without a
    browser raises when it starts another, and changes nothing. *)
Lemma get_browser_blocked (bm : BrowserManager.t) (w : world) :
  BrowserManager.browser bm = None →
  running (calls w) ≠ [] →
  BrowserManager.get_browser (bm, w) = (Raise SyncApiError, (bm, w)).
Proof.
  intros Hb Hr. unfold BrowserManager.get_browser. run. rewrite Hb.
  unfold start. by destruct (running (calls w)).
Qed.

Lemma get_browser_times_blocked (n : nat) (bm : BrowserManager.t) (w : world) :
  BrowserManager.browser bm = None →
  running (calls w) ≠ [] →
  get_browser_times n (bm, w) = (replicate n (Raise SyncApiError), (bm, w)).
Proof.
  intros Hb Hr. induction n as [|n IH]; [done|].
  simpl. by rewrite (get_browser_blocked bm w Hb Hr), IH.
Qed.

(** X15: when no driver is running and the launch fails, the first call of
    [get_browser] raises the launch error and leaves the manager with the
    driver it started and no browser; every later call raises when it
    starts another driver, also where a launch would succeed now, so the
    calls made are one start and one failed launch, whatever the number of
    calls; [close_all] then stops that driver and no driver is left
    running. *)
Theorem get_browser_failed_launch_no_retry (cfg : Config) (w : world) (n : nat) :
  browser_name cfg ∈ BrowserManager.browser_types →
  running (calls w) = [] →
  launch_ok w (attempts w) = false →
  let d := next_id w in
  let failed := Launch d (browser_name cfg) (headless cfg) (slow_mo cfg) None in
  let run := get_browser_times (S n) (BrowserManager.init cfg, w) in
  let closed := BrowserManager.close_all (snd run) in
  fst run = Raise LaunchError :: replicate n (Raise SyncApiError) ∧
  fst (snd run) = BrowserManager.mk (Some d) None cfg ∧
  added w (snd (snd run)) = [Start d; failed] ∧
  running (calls (snd (snd run))) = [d] ∧
  added w (snd (snd closed)) = [Start d; failed; Stop d] ∧
  running (calls (snd (snd closed))) = [].
Proof.
  intros Hk Hr Hl d failed run closed.
  assert (running (calls w ++ [Start d; failed]) = [d]) as Hrun.
  { by rewrite running_app, Hr. }
  assert (run =
    (Raise LaunchError :: replicate n (Raise SyncApiError),
     (BrowserManager.mk (Some d) None cfg,
      World (calls w ++ [Start d; failed]) (S (next_id w)) (S (attempts w))
        (launch_ok w) (text_of w) (visible w)))) as E.
  { unfold run. simpl get_browser_times.
    assert (BrowserManager.get_browser (BrowserManager.init cfg, w) =
      (Raise LaunchError,
       (BrowserManager.mk (Some d) None cfg,
        World (calls w ++ [Start d; failed]) (S (next_id w)) (S (attempts w))
          (launch_ok w) (text_of w) (visible w)))) as ->.
    { unfold BrowserManager.get_browser, BrowserManager.init. run. simpl.
      unfold start, launch, allocate, attempt. rewrite Hr. simpl.
      rewrite (bool_decide_eq_true_2 _ Hk). simpl. rewrite Hl. simpl.
      unfold record. simpl. by rewrite <- app_assoc. }
    rewrite get_browser_times_blocked; [done|done|].
    simpl calls. by rewrite Hrun. }
  unfold closed. rewrite E. cbn [fst snd].
  rewrite close_all_run. cbn [fst snd].
  split; [done|]. split; [done|]. split; [|split; [|split]].
  - unfold added. simpl. by rewrite drop_app_length.
  - simpl calls. exact Hrun.
  - apply added_app. rewrite calls_extend. simpl.
    by rewrite <- app_assoc.
  - rewrite calls_extend. simpl calls. rewrite running_app, Hrun. simpl.
    by rewrite filter_cons_False by (intros H; by apply H).
Qed.

Lemma get_browser_failed_launch_no_retry_witness :
  fst (get_browser_times 3
         (BrowserManager.init default_config,
          World [] 0 0 (λ k, bool_decide (k = 1)) (λ _ _, VNone)
            (λ _ _, false))) =
    [Raise LaunchError; Raise SyncApiError; Raise SyncApiError].
Proof.
  exact (proj1 (get_browser_failed_launch_no_retry default_config
                  (World [] 0 0 (λ k, bool_decide (k = 1)) (λ _ _, VNone)
                     (λ _ _, false)) 2
                  (list_elem_of_here _ _) eq_refl eq_refl)).
Defined.

(** X16: with a browser name that is none of chromium, firefox and webkit
    and no driver running, the first call of [get_browser] starts a driver
    and raises [AttributeError]; every later call raises when it starts
    another driver.  So one driver is started, whatever the number of
    calls, no browser is launched and none is cached; the manager keeps the
    driver. *)
Theorem get_browser_unsupported_kind (cfg : Config) (w : world) (n : nat) :
  browser_name cfg ∉ BrowserManager.browser_types →
  running (calls w) = [] →
  let run := get_browser_times (S n) (BrowserManager.init cfg, w) in
  fst run =
    Raise (AttributeError (browser_name cfg)) ::
    replicate n (Raise SyncApiError) ∧
  added w (snd (snd run)) = [Start (next_id w)] ∧
  fst (snd run) = BrowserManager.mk (Some (next_id w)) None cfg.
Proof.
  intros Hk Hr run.
  assert (run =
    (Raise (AttributeError (browser_name cfg)) ::
     replicate n (Raise SyncApiError),
     (BrowserManager.mk (Some (next_id w)) None cfg,
      World (calls w ++ [Start (next_id w)]) (S (next_id w)) (attempts w)
        (launch_ok w) (text_of w) (visible w)))) as E.
  { unfold run. simpl get_browser_times.
    assert (BrowserManager.get_browser (BrowserManager.init cfg, w) =
      (Raise (AttributeError (browser_name cfg)),
       (BrowserManager.mk (Some (next_id w)) None cfg,
        World (calls w ++ [Start (next_id w)]) (S (next_id w)) (attempts w)
          (launch_ok w) (text_of w) (visible w)))) as ->.
    { unfold BrowserManager.get_browser, BrowserManager.init. run. simpl.
      unfold start, allocate. rewrite Hr. simpl.
      by rewrite (bool_decide_eq_false_2 _ Hk). }
    rewrite get_browser_times_blocked; [done|done|].
    simpl calls. by rewrite running_app, Hr. }
  rewrite E. simpl. split; [done|]. split; [|done].
  unfold added. simpl. by rewrite drop_app_length.
Qed.

Lemma get_browser_unsupported_kind_witness :
  fst (get_browser_times 2
         (BrowserManager.init
            (mkConfig "opera" false 0 "https://example.com" 30000 "testuser"
               "testpass"),
          quiet_world)) =
    [Raise (AttributeError "opera"); Raise SyncApiError].
Proof.
  refine (proj1 (get_browser_unsupported_kind
                   (mkConfig "opera" false 0 "https://example.com" 30000
                      "testuser" "testpass") quiet_world 1 _ eq_refl)).
  simpl. not_in.
Defined.

(** *** The hooks of a whole run *)

Lemma bind_assoc {S A B C} (m : M S A) (k : A → M S B) (h : B → M S C) (s : S) :
  bind (bind m k) h s = bind m (λ x, bind (k x) h) s.
Proof. unfold bind. destruct (m s) as [[a|e] s']; [|done]. done. Qed.

Lemma bind_ok {S A B} (m : M S A) (k : A → M S B) (s s' : S) (a : A) :
  m s = (Ok a, s') → bind m k s = k a s'.
Proof. intros E. unfold bind. by rewrite E. Qed.

(** The two hooks of a scenario when the manager has a browser cached. *)
Lemma scenario_hooks_cached (sc : scenario) (c : context) (w : world)
    (bm : BrowserManager.t) (b : nat) :
  browser_manager c = Some bm → BrowserManager.browser bm = Some b →
  ∃ c',
    (before_scenario sc ;;; after_scenario sc) (c, w) =
      (Ok tt,
       (c', World (calls w ++ scenario_calls b (next_id w) sc) (S (next_id w))
              (attempts w) (launch_ok w) (text_of w) (visible w))) ∧
    browser_manager c' = Some bm.
Proof.
  intros Hm Hb. destruct c as [c1 c2 c3 c4 c5 c6]. simpl in Hm. subst c2.
  unfold before_scenario, after_scenario, with_manager, scenario_calls. run.
  simpl. rewrite (get_browser_cached bm w b Hb). simpl.
  unfold new_page, allocate. simpl.
  case_bool_decide; simpl; eexists;
    (split; [unfold record; simpl; by rewrite <- !app_assoc|reflexivity]).
Qed.

Lemma run_scenarios_cached (scs : list scenario) (c : context) (w : world)
    (bm : BrowserManager.t) (b : nat) :
  browser_manager c = Some bm → BrowserManager.browser bm = Some b →
  ∃ c',
    run_scenarios scs (c, w) =
      (Ok tt,
       (c', World (calls w ++ scenarios_calls b (next_id w) scs)
              (length scs + next_id w) (attempts w) (launch_ok w) (text_of w)
              (visible w))) ∧
    browser_manager c' = Some bm.
Proof.
  revert c w. induction scs as [|sc scs IH]; intros c w Hm Hb.
  - exists c. simpl. rewrite app_nil_r. by destruct w.
  - destruct (scenario_hooks_cached sc c w bm b Hm Hb) as (c1 & E1 & Hm1).
    simpl run_scenarios.
    rewrite <- (bind_assoc (before_scenario sc) (λ _, after_scenario sc)
                  (λ _, run_scenarios scs)).
    rewrite (bind_ok _ _ _ _ _ E1).
    destruct (IH c1 (World (calls w ++ scenario_calls b (next_id w) sc)
                       (S (next_id w)) (attempts w) (launch_ok w) (text_of w)
                       (visible w)) Hm1 Hb) as (c2 & E2 & Hm2).
    exists c2. rewrite E2. simpl. rewrite <- app_assoc, Nat.add_succ_r. done.
Qed.

(** The two hooks of the first scenario, which launches the browser. *)
Lemma scenario_hooks_first (sc : scenario) (c : context) (w : world)
    (cfg : Config) :
  browser_manager c = Some (BrowserManager.init cfg) →
  browser_name cfg ∈ BrowserManager.browser_types →
  running (calls w) = [] →
  launch_ok w (attempts w) = true →
  ∃ c',
    (before_scenario sc ;;; after_scenario sc) (c, w) =
      (Ok tt,
       (c', World (calls w ++
                     [ Start (next_id w);
                       Launch (next_id w) (browser_name cfg) (headless cfg)
                         (slow_mo cfg) (Some (S (next_id w))) ] ++
                     scenario_calls (S (next_id w)) (S (S (next_id w))) sc)
              (S (S (S (next_id w)))) (S (attempts w)) (launch_ok w)
              (text_of w) (visible w))) ∧
    browser_manager c' =
      Some (BrowserManager.mk (Some (next_id w)) (Some (S (next_id w))) cfg).
Proof.
  intros Hm Hk Hr Hl. destruct c as [c1 c2 c3 c4 c5 c6]. simpl in Hm. subst c2.
  unfold before_scenario, after_scenario, with_manager, scenario_calls,
    BrowserManager.get_browser.
  run. simpl.
  unfold start, launch, new_page, allocate, attempt. rewrite Hr. simpl.
  rewrite (bool_decide_eq_true_2 _ Hk). simpl. rewrite Hl. simpl.
  case_bool_decide; simpl; eexists;
    (split; [unfold record; simpl; by rewrite <- !app_assoc|reflexivity]).
Qed.

(** The hooks of the scenarios start and stop no driver. *)
Lemma scenarios_calls_track (b p d : nat) (scs : list scenario) (e : event) :
  e ∈ scenarios_calls b p scs → track [d] e = [d].
Proof.
  revert p. induction scs as [|sc scs IH]; intros p; simpl.
  - intros H. by apply elem_of_nil in H.
  - intros Hin.
    apply elem_of_cons in Hin as [->|Hin]; [done|].
    apply elem_of_cons in Hin as [->|Hin]; [done|].
    apply elem_of_app in Hin as [Hin|Hin]; [|by apply (IH (S p))].
    apply elem_of_app in Hin as [Hin|Hin].
    + case_bool_decide;
        repeat (apply elem_of_cons in Hin as [->|Hin]; [done|]);
        by apply elem_of_nil in Hin.
    + apply list_elem_of_singleton in Hin as ->. done.
Qed.

(** X17: the hooks of a run that begins with no driver running, whose
    browser name is supported and whose first launch succeeds, for any list
    of scenarios, complete without an error.  With no scenario they make no
    call at all.  Otherwise they start one driver and launch one browser
    with the configured name, headless flag and slow-motion delay; every
    scenario gets a page of its own, whose timeout is set, whose screenshot
    is taken if the scenario failed, and which is closed before the next
    scenario; at the end the browser is closed and the driver is stopped,
    once each.  No driver is left running. *)
Theorem run_hooks_calls (cfg : Config) (scs : list scenario) (c : context)
    (w : world) :
  browser_name cfg ∈ BrowserManager.browser_types →
  running (calls w) = [] →
  launch_ok w (attempts w) = true →
  fst (run_hooks cfg scs (c, w)) = Ok tt ∧
  added w (snd (snd (run_hooks cfg scs (c, w)))) =
    match scs with
    | [] => []
    | _ :: _ =>
        [ Start (next_id w);
          Launch (next_id w) (browser_name cfg) (headless cfg) (slow_mo cfg)
            (Some (S (next_id w))) ] ++
        scenarios_calls (S (next_id w)) (S (S (next_id w))) scs ++
        [BrowserClose (S (next_id w)); Stop (next_id w)]
    end ∧
  running (calls (snd (snd (run_hooks cfg scs (c, w))))) = [].
Proof.
  intros Hk Hr Hl. unfold run_hooks.
  destruct c as [c1 c2 c3 c4 c5 c6].
  destruct scs as [|sc scs].
  - unfold before_all, after_all, with_manager. run. simpl.
    split; [done|]. split; [|done]. unfold added. simpl. by rewrite drop_all.
  - set (c0 := Context (Some cfg) (Some (BrowserManager.init cfg)) c3 c4 c5 c6).
    assert (before_all cfg (Context c1 c2 c3 c4 c5 c6, w) = (Ok tt, (c0, w)))
      as E0 by reflexivity.
    destruct (scenario_hooks_first sc c0 w cfg eq_refl Hk Hr Hl)
      as (ca & Ea & Hma).
    match type of Ea with _ = (_, (_, ?w1)) =>
      destruct (run_scenarios_cached scs ca w1 _ _ Hma eq_refl)
        as (cb & Eb & Hmb);
      assert (run_scenarios (sc :: scs) (c0, w) = run_scenarios scs (ca, w1))
        as Ers
    end.
    { simpl run_scenarios.
      rewrite <- (bind_assoc (before_scenario sc) (λ _, after_scenario sc)
                    (λ _, run_scenarios scs)).
      by rewrite (bind_ok _ _ _ _ _ Ea). }
    rewrite Eb in Ers.
    rewrite (bind_ok _ _ _ _ _ E0), (bind_ok _ _ _ _ _ Ers).
    unfold after_all, with_manager. run. rewrite Hmb. simpl.
    rewrite Hmb, close_all_run. simpl.
    split; [done|]. split.
    + apply added_app. unfold scenario_calls. simpl.
      by repeat (rewrite <- app_assoc; simpl).
    + replace ((((calls w ++
                  Start (next_id w)
                  :: Launch (next_id w) (browser_name cfg) (headless cfg)
                       (slow_mo cfg) (Some (S (next_id w)))
                     :: scenario_calls (S (next_id w)) (S (S (next_id w))) sc) ++
                 scenarios_calls (S (next_id w)) (S (S (S (next_id w)))) scs) ++
                [BrowserClose (S (next_id w))]) ++ [Stop (next_id w)])
        with (calls w ++
              Start (next_id w) ::
              (Launch (next_id w) (browser_name cfg) (headless cfg)
                 (slow_mo cfg) (Some (S (next_id w))) ::
               scenarios_calls (S (next_id w)) (S (S (next_id w))) (sc :: scs) ++
               [BrowserClose (S (next_id w))]) ++ [Stop (next_id w)])
        by (simpl; by repeat (rewrite <- app_assoc; simpl)).
      apply running_stopped; [exact Hr|].
      intros e Hin. apply elem_of_cons in Hin as [->|Hin]; [done|].
      apply elem_of_app in Hin as [Hin|Hin].
      * by apply (scenarios_calls_track _ _ _ _ _ Hin).
      * apply list_elem_of_singleton in Hin as ->. done.
Qed.

Lemma run_hooks_calls_witness :
  added quiet_world
    (snd (snd (run_hooks default_config
                 [Scenario "Login" "passed"; Scenario "Log out" "failed"]
                 (empty_context, quiet_world)))) =
    [ Start 0; Launch 0 "chromium" false 0 (Some 1);
      NewPage 1 2; SetDefaultTimeout 2 30000; PageClose 2;
      NewPage 1 3; SetDefaultTimeout 3 30000;
      Screenshot 3 "screenshots/Log_out.png";
      PrintLine "Screenshot saved: screenshots/Log_out.png";
      PageClose 3;
      BrowserClose 1; Stop 0 ].
Proof.
  exact (proj1 (proj2 (run_hooks_calls default_config
                  [Scenario "Login" "passed"; Scenario "Log out" "failed"]
                  empty_context quiet_world (list_elem_of_here _ _) eq_refl
                  eq_refl))).
Defined.

(** *** The headless flag *)

(** X18: in a configuration that loads, headless mode is on exactly when
    [HEADLESS] is set to a string that reads [true] once its letters are
    lowered; any other value, such as [1] or [yes], and an unset variable
    leave it off. *)
Theorem Config_load_headless (p : process) (cfg : Config) :
  Config_load p = Ok cfg →
  headless cfg = true ↔
  ∃ s, environ p !! "HEADLESS" = Some s ∧ lower s = "true".
Proof.
  unfold Config_load, getenv.
  destruct (py_int _ _) as [sm|]; [|discriminate].
  destruct (py_int _ _) as [tm|]; [|discriminate].
  intros [= <-]. simpl. rewrite bool_decide_eq_true.
  destruct (environ p !! "HEADLESS") as [s|]; simpl.
  - split; [eauto|]. by intros (s' & [= <-] & E).
  - split; [discriminate|]. by intros (s' & [=] & _).
Qed.

Lemma Config_load_headless_witness :
  ∃ cfg,
    Config_load (process_with [("HEADLESS", "True")]) = Ok cfg ∧
    headless cfg = true.
Proof.
  eexists. split; [reflexivity|].
  apply (Config_load_headless (process_with [("HEADLESS", "True")]) _ eq_refl).
  by exists "True".
Defined.

Example Config_load_headless_cases :
  Config_load (process_with [("HEADLESS", "1")]) = Ok default_config ∧
  Config_load (process_with [("HEADLESS", "yes")]) = Ok default_config ∧
  Config_load (process_with [("HEADLESS", "TRUE")]) =
    Ok (mkConfig "chromium" true 0 "https://example.com" 30000 "testuser"
          "testpass").
Proof. by vm_compute. Qed.
